(** * Vesting program (programs/vesting/src/lib.rs): a shallow embedding

    The Anchor program keeps one [DataAccount] per token mint.  Its four
    instructions ([initialize], [claim], [withdraw], [change_admin]) are
    modelled as bodies in a small state and error monad over the account:
    the body mutates the in-memory copy of the account and may stop with an
    error after some mutation, exactly like the Rust code.  The Solana
    runtime then commits the account only when the instruction returns
    [Ok]; this is [exec] below.

    Integers keep the Rust widths as ranges over [Z]: u8, u64, u128 and
    i64.  Arithmetic written with [+], [-], [*] in the source (which panics
    on overflow in an overflow-checked build) is modelled as a panic
    ([ArithmeticPanic]); [checked_*] is modelled with [option]. *)

From Stdlib Require Import ZArith Lia.
From stdpp Require Import base list gmap.

Open Scope Z_scope.

(** ** Machine integers *)

Definition U32_MAX : Z := 2 ^ 32 - 1.
Definition U64_MAX : Z := 2 ^ 64 - 1.
Definition U128_MAX : Z := 2 ^ 128 - 1.
Definition I64_MIN : Z := - 2 ^ 63.
Definition I64_MAX : Z := 2 ^ 63 - 1.

Definition in_u8 (x : Z) : Prop := 0 <= x <= 255.
Definition in_u64 (x : Z) : Prop := 0 <= x <= U64_MAX.
Definition in_i64 (x : Z) : Prop := I64_MIN <= x <= I64_MAX.

(** ** Constants *)

Definition SECONDS_PER_MONTH : Z := 2629776.
Definition GRACE_PERIOD : Z := 6 * SECONDS_PER_MONTH.
Definition MAX_START_DELAY : Z := 365 * 24 * 60 * 60.
Definition MAX_BENEFICIARIES : nat := 50.
Definition MAX_DECIMALS : Z := 9.

(** ** Data *)

(** A [Pubkey] is an opaque 32-byte identity; only equality matters, and
    [Pubkey::default()] is the all-zero key. *)
Abbreviation Pubkey := N.
Definition default_pubkey : Pubkey := 0%N.

Record Beneficiary := mkBeneficiary {
  key : Pubkey;
  allocated_tokens : Z;  (* u64 *)
  claimed_tokens : Z;    (* u64 *)
  start_time : Z;        (* i64 *)
  cliff_months : Z;      (* u8 *)
  total_months : Z       (* u8 *)
}.

Record DataAccount := mkDataAccount {
  token_amount : Z;      (* u64 *)
  authority : Pubkey;
  escrow_wallet : Pubkey;
  token_mint : Pubkey;
  beneficiaries : list Beneficiary;
  decimals : Z           (* u8 *)
}.

(** [#[derive(Default)]]: the zeroed account Anchor's [init] creates. *)
Definition default_data_account : DataAccount :=
  mkDataAccount 0 default_pubkey default_pubkey default_pubkey [] 0.

Definition set_claimed_tokens (b : Beneficiary) (v : Z) : Beneficiary :=
  mkBeneficiary (key b) (allocated_tokens b) v (start_time b)
    (cliff_months b) (total_months b).

Definition set_authority (da : DataAccount) (a : Pubkey) : DataAccount :=
  mkDataAccount (token_amount da) a (escrow_wallet da) (token_mint da)
    (beneficiaries da) (decimals da).

Definition set_beneficiaries (da : DataAccount) (bs : list Beneficiary)
  : DataAccount :=
  mkDataAccount (token_amount da) (authority da) (escrow_wallet da)
    (token_mint da) bs (decimals da).

(** [data_account.beneficiaries[index].claimed_tokens = v] *)
Definition store_claimed (index : nat) (v : Z) (da : DataAccount)
  : DataAccount :=
  match beneficiaries da !! index with
  | Some b => set_beneficiaries da (<[index := set_claimed_tokens b v]> (beneficiaries da))
  | None => da
  end.

(** ** Errors *)

Inductive VestingError :=
  | InvalidSender | ClaimNotAllowed | BeneficiaryNotFound | CliffNotReached
  | TooManyBeneficiaries | InvalidVestingConfig | InvalidVestingPeriod
  | CliffTooLong | MathOverflow | NoBeneficiaries | InvalidAmount
  | InvalidCliffPeriod | InvalidAllocation | InvalidStartTime
  | InsufficientBalance | InvalidDecimals | OverAllocation
  | DuplicateBeneficiary | UnauthorizedAdmin | NoUnclaimedTokens
  | StartTimeTooFar | InvalidEscrowWallet | InvalidEscrowBump | SameAdmin
  | InvalidAddress.

(** Errors of the program plus those raised around it: an arithmetic
    panic, Anchor's account checks, and a failing token transfer CPI. *)
Inductive Error :=
  | VErr (e : VestingError)
  | ArithmeticPanic
  | AccountAlreadyInUse
  | AccountNotInitialized
  | TokenTransferFailed.

Inductive result (A : Type) :=
  | Ok (a : A)
  | Err (e : Error).
Arguments Ok {A} a.
Arguments Err {A} e.

Definition res_bind {A B} (r : result A) (k : A -> result B) : result B :=
  match r with Ok a => k a | Err e => Err e end.

Notation "'let?' x := r 'in' k" := (res_bind r (fun x => k))
  (at level 200, x name, r at level 100, k at level 200).

(** [require!(cond, err)] *)
Definition require (cond : bool) (e : VestingError) : result unit :=
  if cond then Ok tt else Err (VErr e).

(** [.ok_or(err)?] *)
Definition ok_or {A} (o : option A) (e : VestingError) : result A :=
  match o with Some a => Ok a | None => Err (VErr e) end.

(** ** Integer operations as Rust has them *)

Definition checked_add_u64 (a b : Z) : option Z :=
  if a + b <=? U64_MAX then Some (a + b) else None.
Definition checked_add_u32 (a b : Z) : option Z :=
  if a + b <=? U32_MAX then Some (a + b) else None.
Definition checked_mul_u128 (a b : Z) : option Z :=
  if a * b <=? U128_MAX then Some (a * b) else None.
Definition checked_div_u128 (a b : Z) : option Z :=
  if b =? 0 then None else Some (a / b).
(** [i64::checked_div] truncates toward zero and fails on [/0] and
    [MIN / -1]. *)
Definition checked_div_i64 (a b : Z) : option Z :=
  if (b =? 0) || ((a =? I64_MIN) && (b =? -1)) then None
  else Some (Z.quot a b).
Definition saturating_sub_i64 (a b : Z) : Z :=
  Z.max I64_MIN (Z.min I64_MAX (a - b)).
Definition saturating_sub_unsigned (a b : Z) : Z := Z.max 0 (a - b).
(** [u64::try_from(u128)] *)
Definition u64_try_from (x : Z) : option Z :=
  if x <=? U64_MAX then Some x else None.
(** [i64 as u64] *)
Definition i64_as_u64 (x : Z) : Z := x mod 2 ^ 64.

(** Plain [-], [+], [*] on fixed widths: a panic on overflow. *)
Definition sub_u64 (a b : Z) : result Z :=
  if 0 <=? a - b then Ok (a - b) else Err ArithmeticPanic.
Definition add_i64 (a b : Z) : result Z :=
  if (I64_MIN <=? a + b) && (a + b <=? I64_MAX) then Ok (a + b)
  else Err ArithmeticPanic.
Definition mul_i64 (a b : Z) : result Z :=
  if (I64_MIN <=? a * b) && (a * b <=? I64_MAX) then Ok (a * b)
  else Err ArithmeticPanic.

(** ** Instruction bodies: state and error over the in-memory account *)

Definition Instr (A : Type) : Type := DataAccount -> DataAccount * result A.

Definition ret {A} (a : A) : Instr A := fun s => (s, Ok a).
Definition bind {A B} (m : Instr A) (k : A -> Instr B) : Instr B :=
  fun s => match m s with
           | (s', Ok a) => k a s'
           | (s', Err e) => (s', Err e)
           end.
Definition lift {A} (r : result A) : Instr A := fun s => (s, r).
Definition get : Instr DataAccount := fun s => (s, Ok s).
Definition put (s' : DataAccount) : Instr unit := fun _ => (s', Ok tt).
Definition modify (f : DataAccount -> DataAccount) : Instr unit :=
  fun s => (f s, Ok tt).

Notation "'let*' x := m 'in' k" := (bind m (fun x => k))
  (at level 200, x name, m at level 100, k at level 200).

(** [token::transfer(cpi_ctx, amount)?]: the token program is external;
    whether the CPI succeeds is an input of the model. *)
Definition token_transfer (ok : bool) : Instr unit :=
  lift (if ok then Ok tt else Err TokenTransferFailed).

(** ** [claim] *)

(** [months_elapsed]: whole months since [start_time], 0 before it. *)
Definition months_elapsed_of (b : Beneficiary) (now : Z) : result Z :=
  if now >=? start_time b then
    let time_diff := saturating_sub_i64 now (start_time b) in
    let? calculated_months :=
      ok_or (checked_div_i64 time_diff SECONDS_PER_MONTH) MathOverflow in
    Ok (i64_as_u64 calculated_months)
  else Ok 0.

(** The part of [claim] from [cliff_months] to [months_vested]; returns
    [(months_vested, vesting_month)]. *)
Definition vesting_progress (b : Beneficiary) (now : Z) : result (Z * Z) :=
  let cliff := cliff_months b in
  let total := total_months b in
  let? vesting_month := sub_u64 total cliff in
  let? _ := require (vesting_month >? 0) InvalidVestingConfig in
  let? months_elapsed := months_elapsed_of b now in
  if months_elapsed <? cliff then Err (VErr CliffNotReached) else
  let? past_cliff := sub_u64 months_elapsed cliff in
  Ok (Z.min past_cliff vesting_month, vesting_month).

(** [unlocked], computed on u128. *)
Definition unlocked_of (allocated_raw months_vested vesting_month : Z)
  : result Z :=
  if months_vested >=? vesting_month then Ok allocated_raw
  else
    let? p := ok_or (checked_mul_u128 allocated_raw months_vested) MathOverflow in
    ok_or (checked_div_u128 p vesting_month) MathOverflow.

Definition claim_unlocked (b : Beneficiary) (now : Z) : result Z :=
  let? mv := vesting_progress b now in
  unlocked_of (allocated_tokens b) (fst mv) (snd mv).

(** The Claim Calculator: [claimable], or the error [claim] stops with. *)
Definition claim_calc (b : Beneficiary) (now : Z) : result Z :=
  let? unlocked := claim_unlocked b now in
  let claimable := saturating_sub_unsigned unlocked (claimed_tokens b) in
  let? _ := require (claimable >? 0) ClaimNotAllowed in
  Ok claimable.

(** The accounts and clock a [claim] transaction sees.  The PDA checks
    ([find_program_address]) are abstracted by their outcome. *)
Record ClaimCtx := mkClaimCtx {
  cl_sender : Pubkey;
  cl_now : Z;
  cl_escrow_key_ok : bool;   (* escrow_wallet.key() == expected_escrow_pda *)
  cl_escrow_bump_ok : bool;  (* escrow_bump == expected_escrow_bump *)
  cl_escrow_amount : Z;      (* escrow_wallet.amount *)
  cl_transfer_ok : bool
}.

Definition claim (c : ClaimCtx) : Instr unit :=
  let* _ := lift (require (cl_escrow_key_ok c) InvalidEscrowWallet) in
  let* _ := lift (require (cl_escrow_bump_ok c) InvalidEscrowBump) in
  let* da := get in
  match list_find (fun b => key b = cl_sender c) (beneficiaries da) with
  | None => lift (Err (VErr BeneficiaryNotFound))
  | Some (index, beneficiary) =>
      let* claimable := lift (claim_calc beneficiary (cl_now c)) in
      let* transfer_amount := lift (ok_or (u64_try_from claimable) MathOverflow) in
      let* _ := lift (require (cl_escrow_amount c >=? transfer_amount) InsufficientBalance) in
      let* new_claimed := lift (ok_or (checked_add_u64 (claimed_tokens beneficiary)
                                    transfer_amount) MathOverflow) in
      let* _ := modify (store_claimed index new_claimed) in
      token_transfer (cl_transfer_ok c)
  end.

(** ** [withdraw] *)

(** [earliest_withdraw_time]:
    [max(cliff_end_time + GRACE_PERIOD, total_vesting_period + GRACE_PERIOD)]. *)
Definition earliest_withdraw_time (b : Beneficiary) : result Z :=
  let? cm := mul_i64 (cliff_months b) SECONDS_PER_MONTH in
  let? cliff_end_time := add_i64 (start_time b) cm in
  let? tm := mul_i64 (total_months b) SECONDS_PER_MONTH in
  let? total_vesting_period := add_i64 (start_time b) tm in
  let? x := add_i64 cliff_end_time GRACE_PERIOD in
  let? y := add_i64 total_vesting_period GRACE_PERIOD in
  Ok (Z.max x y).

(** The [for i in 0..len] sweep.  It returns the in-memory beneficiary list
    as the loop leaves it (entries already swept stay swept when the loop
    stops on an error) and either the error or
    [(total_unclaimed, beneficiaries_processed)]. *)
Fixpoint withdraw_loop (now : Z) (bs : list Beneficiary)
    (total_unclaimed processed : Z) : list Beneficiary * result (Z * Z) :=
  match bs with
  | [] => ([], Ok (total_unclaimed, processed))
  | b :: rest =>
      match earliest_withdraw_time b with
      | Err e => (bs, Err e)
      | Ok earliest =>
          let unclaimed := saturating_sub_unsigned (allocated_tokens b) (claimed_tokens b) in
          if (now >? earliest) && (unclaimed >? 0) then
            match checked_add_u64 total_unclaimed unclaimed with
            | None => (bs, Err (VErr MathOverflow))
            | Some total' =>
                let b' := set_claimed_tokens b (allocated_tokens b) in
                match checked_add_u32 processed 1 with
                | None => (b' :: rest, Err (VErr MathOverflow))
                | Some processed' =>
                    let '(rest', r) := withdraw_loop now rest total' processed' in
                    (b' :: rest', r)
                end
            end
          else
            let '(rest', r) := withdraw_loop now rest total_unclaimed processed in
            (b :: rest', r)
      end
  end.

Record WithdrawCtx := mkWithdrawCtx {
  wd_admin : Pubkey;
  wd_now : Z;
  wd_escrow_key_ok : bool;
  wd_escrow_bump_ok : bool;
  wd_escrow_amount : Z;
  wd_transfer_ok : bool
}.

Definition withdraw (c : WithdrawCtx) : Instr unit :=
  let* _ := lift (require (wd_escrow_key_ok c) InvalidEscrowWallet) in
  let* _ := lift (require (wd_escrow_bump_ok c) InvalidEscrowBump) in
  let* da := get in
  let* _ := lift (require (N.eqb (authority da) (wd_admin c)) UnauthorizedAdmin) in
  let '(bs', r) := withdraw_loop (wd_now c) (beneficiaries da) 0 0 in
  let* _ := put (set_beneficiaries da bs') in
  let* totals := lift r in
  let total_unclaimed := fst totals in
  let* _ := lift (require (total_unclaimed >? 0) NoUnclaimedTokens) in
  let* _ := lift (require (wd_escrow_amount c >=? total_unclaimed) InsufficientBalance) in
  token_transfer (wd_transfer_ok c).

(** ** [change_admin] *)

Record ChangeAdminCtx := mkChangeAdminCtx {
  ca_current_admin : Pubkey;
  ca_new_admin : Pubkey
}.

(** The constraints of the [ChangeAdmin] accounts struct, in field order,
    then the body. *)
Definition change_admin (c : ChangeAdminCtx) : Instr unit :=
  let* da := get in
  let* _ := lift (require (N.eqb (authority da) (ca_current_admin c)) UnauthorizedAdmin) in
  let* _ := lift (require (negb (N.eqb (ca_new_admin c) (ca_current_admin c))) SameAdmin) in
  let* _ := lift (require (negb (N.eqb (ca_new_admin c) default_pubkey)) InvalidAddress) in
  let* _ := lift (require (N.eqb (authority da) (ca_current_admin c)) UnauthorizedAdmin) in
  put (set_authority da (ca_new_admin c)).

(** ** [initialize] *)

(** The validation loop over [beneficiaries], with the [HashSet] [seen]. *)
Fixpoint validate_beneficiaries (now : Z) (seen : gset Pubkey)
    (bs : list Beneficiary) : result unit :=
  match bs with
  | [] => Ok tt
  | b :: rest =>
      let? _ := require (total_months b >=? 1) InvalidVestingPeriod in
      let? _ := require (cliff_months b <=? 48) CliffTooLong in
      let? _ := require (cliff_months b <? total_months b) InvalidCliffPeriod in
      let? _ := require (allocated_tokens b >? 0) InvalidAllocation in
      let? _ := require (start_time b >=? now) InvalidStartTime in
      let? limit := add_i64 now MAX_START_DELAY in
      let? _ := require (start_time b <=? limit) StartTimeTooFar in
      let? _ := (if cliff_months b >? 0
                 then require (Z.rem (total_months b) (cliff_months b) =? 0)
                        InvalidVestingConfig
                 else Ok tt) in
      (* [seen.insert(b.key)] is false when the key is already there *)
      let? _ := require (negb (bool_decide (key b ∈ seen))) DuplicateBeneficiary in
      validate_beneficiaries now ({[key b]} ∪ seen) rest
  end.

(** [total_allocated], summed with [checked_add]. *)
Fixpoint sum_allocations (total_allocated : Z) (bs : list Beneficiary)
  : result Z :=
  match bs with
  | [] => Ok total_allocated
  | b :: rest =>
      let? t := ok_or (checked_add_u64 total_allocated (allocated_tokens b))
                  MathOverflow in
      sum_allocations t rest
  end.

Record InitCtx := mkInitCtx {
  in_sender : Pubkey;
  in_beneficiaries : list Beneficiary;
  in_amount : Z;
  in_decimals : Z;
  in_now : Z;
  in_escrow_key : Pubkey;
  in_mint_key : Pubkey;
  in_wallet_amount : Z;     (* wallet_to_withdraw_from.amount *)
  in_transfer_ok : bool
}.

Definition store_config (c : InitCtx) (da : DataAccount) : DataAccount :=
  mkDataAccount (in_amount c) (authority da) (in_escrow_key c) (in_mint_key c)
    (in_beneficiaries c) (in_decimals c).

Definition initialize (c : InitCtx) : Instr unit :=
  let bs := in_beneficiaries c in
  let* da := get in
  let* _ := (if N.eqb (authority da) default_pubkey
             then put (set_authority da (in_sender c))
             else lift (require (N.eqb (authority da) (in_sender c)) UnauthorizedAdmin)) in
  let* _ := lift (require (negb (bool_decide (bs = []))) NoBeneficiaries) in
  let* _ := lift (require (Nat.leb (length bs) MAX_BENEFICIARIES) TooManyBeneficiaries) in
  let* _ := lift (require (in_amount c >? 0) InvalidAmount) in
  let* _ := lift (require (in_decimals c <=? MAX_DECIMALS) InvalidDecimals) in
  let* _ := lift (validate_beneficiaries (in_now c) ∅ bs) in
  let* total_allocated := lift (sum_allocations 0 bs) in
  let* _ := lift (require (total_allocated <=? in_amount c) OverAllocation) in
  let* _ := modify (store_config c) in
  let* _ := lift (require (in_wallet_amount c >=? in_amount c) InsufficientBalance) in
  token_transfer (in_transfer_ok c).

(** ** The runtime *)

Inductive Instruction :=
  | Initialize (c : InitCtx)
  | Claim (c : ClaimCtx)
  | Withdraw (c : WithdrawCtx)
  | ChangeAdmin (c : ChangeAdminCtx).

(** The data account of one mint: absent until [initialize]. *)
Definition Ledger := option DataAccount.

(** A transaction commits the account only when the instruction succeeds. *)
Definition commit (s : DataAccount) (out : DataAccount * result unit)
  : Ledger * result unit :=
  match out with
  | (s', Ok tt) => (Some s', Ok tt)
  | (_, Err e) => (Some s, Err e)
  end.

Definition exec (l : Ledger) (i : Instruction) : Ledger * result unit :=
  match i, l with
  | Initialize c, None =>
      (* [#[account(init, ...)]]: a fresh zeroed account *)
      match initialize c default_data_account with
      | (s', Ok tt) => (Some s', Ok tt)
      | (_, Err e) => (None, Err e)
      end
  | Initialize _, Some _ => (l, Err AccountAlreadyInUse)
  | _, None => (None, Err AccountNotInitialized)
  | Claim c, Some s => commit s (claim c s)
  | Withdraw c, Some s => commit s (withdraw c s)
  | ChangeAdmin c, Some s => commit s (change_admin c s)
  end.

Fixpoint exec_all (l : Ledger) (is : list Instruction) : Ledger :=
  match is with
  | [] => l
  | i :: rest => exec_all (fst (exec l i)) rest
  end.

(** ** Scenario A of the spec *)

Definition M : Z := SECONDS_PER_MONTH.

Definition scenarioA_beneficiary (k : Pubkey) (T0 : Z) : Beneficiary :=
  mkBeneficiary k 1200000 0 T0 3 12.

(** ** Sweep entries, claimed amounts, order of the [initialize] checks *)

(** What one pass of the loop may do to an entry: leave it, or, once the
    entry's grace period is over and it still has unclaimed tokens, mark it
    fully claimed. *)
Definition swept (now : Z) (b b' : Beneficiary) : Prop :=
  b' = b \/
  (exists t, earliest_withdraw_time b = Ok t /\ now > t /\
     claimed_tokens b < allocated_tokens b /\
     b' = set_claimed_tokens b (allocated_tokens b)).

(** The u64 ranges and the spec's invariant [claimed <= allocated]. *)
Definition claim_bounds (b : Beneficiary) : Prop :=
  in_u64 (allocated_tokens b) /\ in_u64 (claimed_tokens b) /\
  claimed_tokens b <= allocated_tokens b.

Definition claims_within (da : DataAccount) : Prop :=
  forall (i : nat) (b : Beneficiary), beneficiaries da !! i = Some b -> claim_bounds b.

(** An entry after a transaction is the same beneficiary with the same
    terms and at least as much claimed. *)
Definition claim_progress (b b' : Beneficiary) : Prop :=
  key b' = key b /\ allocated_tokens b' = allocated_tokens b /\
  start_time b' = start_time b /\ cliff_months b' = cliff_months b /\
  total_months b' = total_months b /\ claimed_tokens b <= claimed_tokens b'.

Definition claims_progress (da da' : DataAccount) : Prop :=
  length (beneficiaries da') = length (beneficiaries da) /\
  forall (i : nat) (b b' : Beneficiary),
    beneficiaries da !! i = Some b -> beneficiaries da' !! i = Some b' ->
    claim_progress b b'.

(** The order of checks described in words, as a list of (condition,
    error) pairs: the list checks, the amount and decimals checks, then one
    pass over the beneficiaries in list order (each beneficiary's field
    checks, then whether its key was seen before), then the sum.  The
    reported error is the first failing one.  Used only to compare with
    [initialize]. *)
Definition beneficiary_checks (now : Z) (earlier : list Pubkey) (b : Beneficiary)
  : list (bool * VestingError) :=
  [(total_months b >=? 1, InvalidVestingPeriod);
   (cliff_months b <=? 48, CliffTooLong);
   (cliff_months b <? total_months b, InvalidCliffPeriod);
   (allocated_tokens b >? 0, InvalidAllocation);
   (start_time b >=? now, InvalidStartTime);
   (start_time b <=? now + MAX_START_DELAY, StartTimeTooFar);
   (negb (cliff_months b >? 0) || (Z.rem (total_months b) (cliff_months b) =? 0),
    InvalidVestingConfig);
   (negb (bool_decide (key b ∈ earlier)), DuplicateBeneficiary)].

Fixpoint beneficiary_pass (now : Z) (earlier : list Pubkey) (bs : list Beneficiary)
  : list (bool * VestingError) :=
  match bs with
  | [] => []
  | b :: rest => beneficiary_checks now earlier b ++ beneficiary_pass now (key b :: earlier) rest
  end.

Definition total_allocation (bs : list Beneficiary) : Z :=
  fold_right Z.add 0 (map allocated_tokens bs).

Definition ordered_checks (now : Z) (bs : list Beneficiary) (amount dec : Z)
  : list (bool * VestingError) :=
  [(negb (Nat.eqb (length bs) 0), NoBeneficiaries);
   (Nat.leb (length bs) 50, TooManyBeneficiaries);
   (amount >? 0, InvalidAmount);
   (dec <=? 9, InvalidDecimals)]
  ++ beneficiary_pass now [] bs
  ++ [(total_allocation bs <=? U64_MAX, MathOverflow);
      (total_allocation bs <=? amount, OverAllocation)].

Fixpoint first_failure (cs : list (bool * VestingError)) : option VestingError :=
  match cs with
  | [] => None
  | (ok, e) :: rest => if ok then first_failure rest else Some e
  end.

Definition as_result (o : option VestingError) : result unit :=
  match o with Some e => Err (VErr e) | None => Ok tt end.

(** ** Concrete inputs *)

(** A schedule with the Scenario A beneficiary (key 1, start 1_700_000_000)
    and admin key 7. *)
Definition T0A : Z := 1700000000.
Definition acctA : DataAccount :=
  mkDataAccount 1200000 7 8 9 [scenarioA_beneficiary 1 T0A] 6.
(** The same schedule once swept. *)
Definition acctA_swept : DataAccount :=
  mkDataAccount 1200000 7 8 9 [set_claimed_tokens (scenarioA_beneficiary 1 T0A) 1200000] 6.
(** The admin's sweep one second after the grace period of Scenario B. *)
Definition sweepB (escrow_amount : Z) : WithdrawCtx :=
  mkWithdrawCtx 7 (T0A + 12 * M + 6 * M + 1) true true escrow_amount true.

(** A beneficiary without cliff whose vesting starts at 1000. *)
Definition acct_no_cliff : DataAccount :=
  mkDataAccount 100 7 8 9 [mkBeneficiary 1 100 0 1000 0 12] 0.

(** A creation call whose second entry repeats the first key and whose
    third entry has [total_months = 0]. *)
Definition dup_then_bad : list Beneficiary :=
  [mkBeneficiary 1 100 0 (T0A + 10) 0 12;
   mkBeneficiary 1 100 0 (T0A + 10) 0 12;
   mkBeneficiary 2 100 0 (T0A + 10) 0 0].
Definition init_dup_then_bad : InitCtx :=
  mkInitCtx 7 dup_then_bad 1000 6 T0A 8 9 1000 true.

(** ** Account layout *)

(** [calculate_vesting_space!(n)]: the bytes [initialize] allocates for the
    data account of [n] beneficiaries. *)
Definition calculate_vesting_space (beneficiaries_count : nat) : nat :=
  8 + 8 + 32 + 32 + 32 + 1 + (4 + beneficiaries_count * (32 + 8 + 8 + 8 + 1 + 1) + 1).

(** The [n] little-endian bytes of [x] (two's complement for negative [x]). *)
Definition le_bytes (n : nat) (x : Z) : list Z :=
  map (fun i => Z.land (Z.shiftr x (8 * Z.of_nat i)) 255) (seq 0 n).

(** The Borsh encoding of the [#[account]] structs, field by field in
    declaration order: a [Pubkey] is 32 bytes, a [Vec] is a u32 length
    followed by its elements, and the account starts with its 8-byte
    discriminator [disc]. *)
Definition borsh_pubkey (k : Pubkey) : list Z := le_bytes 32 (Z.of_N k).

Definition borsh_beneficiary (b : Beneficiary) : list Z :=
  borsh_pubkey (key b) ++ le_bytes 8 (allocated_tokens b) ++
  le_bytes 8 (claimed_tokens b) ++ le_bytes 8 (start_time b) ++
  le_bytes 1 (cliff_months b) ++ le_bytes 1 (total_months b).

Definition borsh_data_account (disc : list Z) (da : DataAccount) : list Z :=
  disc ++ le_bytes 8 (token_amount da) ++ borsh_pubkey (authority da) ++
  borsh_pubkey (escrow_wallet da) ++ borsh_pubkey (token_mint da) ++
  le_bytes 4 (Z.of_nat (length (beneficiaries da))) ++
  concat (map borsh_beneficiary (beneficiaries da)) ++ le_bytes 1 (decimals da).

(** ** Quantities read off the account *)

(** What [initialize] checks of one beneficiary. *)
Definition beneficiary_valid (now : Z) (b : Beneficiary) : Prop :=
  1 <= total_months b /\ cliff_months b <= 48 /\ cliff_months b < total_months b /\
  0 < allocated_tokens b /\ now <= start_time b <= now + MAX_START_DELAY /\
  (0 < cliff_months b -> Z.rem (total_months b) (cliff_months b) = 0).

(** Two entries with the same terms, whatever their [claimed_tokens]. *)
Definition same_terms (b b' : Beneficiary) : Prop :=
  key b' = key b /\ allocated_tokens b' = allocated_tokens b /\
  start_time b' = start_time b /\ cliff_months b' = cliff_months b /\
  total_months b' = total_months b.

Definition with_beneficiaries (c : InitCtx) (bs : list Beneficiary) : InitCtx :=
  mkInitCtx (in_sender c) bs (in_amount c) (in_decimals c) (in_now c)
    (in_escrow_key c) (in_mint_key c) (in_wallet_amount c) (in_transfer_ok c).

Definition sum_claimed (bs : list Beneficiary) : Z :=
  fold_right Z.add 0 (map claimed_tokens bs).

(** The number of positions whose [claimed_tokens] differ. *)
Fixpoint count_changed (bs bs' : list Beneficiary) : Z :=
  match bs, bs' with
  | b :: rest, b' :: rest' =>
      (if claimed_tokens b =? claimed_tokens b' then 0 else 1) + count_changed rest rest'
  | _, _ => 0
  end.

(** A valid two-entry creation call (keys 1 and 2, admin 7), the account it
    stores, and the same call with a first entry that claims to have
    received 500 tokens of its 100 already. *)
Definition init_valid : InitCtx :=
  mkInitCtx 7 [mkBeneficiary 1 100 0 (T0A + 10) 0 12;
               mkBeneficiary 2 200 0 (T0A + 20) 3 12] 1000 6 T0A 8 9 1000 true.
Definition acct_valid : DataAccount :=
  mkDataAccount 1000 7 8 9 (in_beneficiaries init_valid) 6.
Definition preclaimed : list Beneficiary :=
  [mkBeneficiary 1 100 500 (T0A + 10) 0 12;
   mkBeneficiary 2 200 0 (T0A + 20) 3 12].

(** The Scenario A claim one month after the cliff, and the account after it. *)
Definition claimA4 : ClaimCtx := mkClaimCtx 1 (T0A + 4 * M) true true 200000 true.
Definition acctA_claimed4 : DataAccount :=
  mkDataAccount 1200000 7 8 9 [set_claimed_tokens (scenarioA_beneficiary 1 T0A) 133333] 6.

Example scenarioA_1 :
  claim_calc (scenarioA_beneficiary 1 1700000000) (1700000000 + 3 * M - 1)
  = Err (VErr CliffNotReached).
Proof. reflexivity. Qed.
Example scenarioA_2 :
  claim_calc (scenarioA_beneficiary 1 1700000000) (1700000000 + 3 * M)
  = Err (VErr ClaimNotAllowed).
Proof. reflexivity. Qed.
Example scenarioA_3 :
  claim_calc (scenarioA_beneficiary 1 1700000000) (1700000000 + 4 * M) = Ok 133333.
Proof. reflexivity. Qed.

(** ** Facts about the claim calculation *)

Lemma months_elapsed_before_start (b : Beneficiary) (now : Z) :
  now < start_time b -> months_elapsed_of b now = Ok 0.
Proof.
  intros H. unfold months_elapsed_of.
  destruct (Z.geb_spec now (start_time b)); [lia | reflexivity].
Qed.

Lemma months_elapsed_after_start (b : Beneficiary) (now : Z) :
  start_time b <= now -> now - start_time b <= I64_MAX ->
  months_elapsed_of b now = Ok ((now - start_time b) / SECONDS_PER_MONTH).
Proof.
  intros H1 H2. unfold months_elapsed_of.
  destruct (Z.geb_spec now (start_time b)); [|lia].
  unfold saturating_sub_i64, checked_div_i64, I64_MIN in *.
  replace (Z.max (- 2 ^ 63) (Z.min I64_MAX (now - start_time b)))
    with (now - start_time b) by lia.
  simpl. rewrite Z.quot_div_nonneg by (unfold SECONDS_PER_MONTH; lia).
  rewrite andb_false_r. simpl.
  unfold i64_as_u64. f_equal. apply Z.mod_small. split.
  - apply Z.div_pos; unfold SECONDS_PER_MONTH; lia.
  - assert ((now - start_time b) / SECONDS_PER_MONTH <= now - start_time b).
    { apply Z.div_le_upper_bound; unfold SECONDS_PER_MONTH; lia. }
    unfold I64_MAX in *. lia.
Qed.

(** Month arithmetic: [n * M + r] seconds are [n] whole months. *)
Lemma months_of_offset (n r : Z) :
  0 <= r < SECONDS_PER_MONTH -> (n * SECONDS_PER_MONTH + r) / SECONDS_PER_MONTH = n.
Proof.
  intros Hr. rewrite Z.add_comm, Z.div_add by (unfold SECONDS_PER_MONTH; lia).
  rewrite Z.div_small by lia. lia.
Qed.

Lemma months_elapsed_offset (b : Beneficiary) (n r : Z) :
  0 <= n -> 0 <= r < SECONDS_PER_MONTH ->
  n * SECONDS_PER_MONTH + r <= I64_MAX ->
  months_elapsed_of b (start_time b + (n * SECONDS_PER_MONTH + r)) = Ok n.
Proof.
  intros Hn Hr Hmax.
  rewrite months_elapsed_after_start by (unfold SECONDS_PER_MONTH in *; lia).
  replace (start_time b + (n * SECONDS_PER_MONTH + r) - start_time b)
    with (n * SECONDS_PER_MONTH + r) by lia.
  rewrite months_of_offset by lia. reflexivity.
Qed.

Lemma list_find_key_single (b : Beneficiary) (k : Pubkey) :
  key b = k -> list_find (fun b' => key b' = k) [b] = Some (0%nat, b).
Proof. intros H. simpl. rewrite decide_True by exact H. reflexivity. Qed.

(** The whole [claim] transaction once the calculator has given its
    answer, for an account whose beneficiary list is [[b]]. *)
Lemma exec_claim_single (da : DataAccount) (b : Beneficiary) (c : ClaimCtx) :
  key b = cl_sender c -> cl_escrow_key_ok c = true -> cl_escrow_bump_ok c = true ->
  exec (Some (set_beneficiaries da [b])) (Claim c)
  = match claim_calc b (cl_now c) with
    | Err e => (Some (set_beneficiaries da [b]), Err e)
    | Ok claimable =>
        commit (set_beneficiaries da [b])
          ((let* transfer_amount := lift (ok_or (u64_try_from claimable) MathOverflow) in
           let* _ := lift (require (cl_escrow_amount c >=? transfer_amount) InsufficientBalance) in
           let* new_claimed := lift (ok_or (checked_add_u64 (claimed_tokens b)
                                              transfer_amount) MathOverflow) in
           let* _ := modify (store_claimed 0 new_claimed) in
           token_transfer (cl_transfer_ok c))
          (set_beneficiaries da [b]))
    end.
Proof.
  intros Hk Hkey Hbump. unfold exec, claim. rewrite Hkey, Hbump.
  cbn [bind lift require get beneficiaries set_beneficiaries].
  rewrite list_find_key_single by exact Hk.
  destruct (claim_calc b (cl_now c)); reflexivity.
Qed.

(** ** Claims *)

(** C1 (Scenario A).  A beneficiary with [allocated = 1_200_000],
    [cliff_months = 3], [total_months = 12], [start = T0], [claimed = 0]:
    at [T0 + 3*M - 1] the claim fails with [CliffNotReached]; at [T0 + 3*M]
    [months_vested = 0], [unlocked = 0] and the claim fails with
    [ClaimNotAllowed]; at [T0 + 4*M] [months_vested = 1], [vesting_span = 9],
    [unlocked = claimable = 133_333], and with that much in escrow the
    claim succeeds and records [claimed = 133_333]. *)
Theorem scenarioA_claim (T0 : Z) (k : Pubkey) (escrow_amount : Z)
    (da : DataAccount)
    (Hlo : I64_MIN <= T0) (Hhi : T0 + 4 * M <= I64_MAX)
    (Hbal : 133333 <= escrow_amount) :
  let b := scenarioA_beneficiary k T0 in
  let s := set_beneficiaries da [b] in
  let ctx now := mkClaimCtx k now true true escrow_amount true in
  exec (Some s) (Claim (ctx (T0 + 3 * M - 1))) = (Some s, Err (VErr CliffNotReached)) /\
  vesting_progress b (T0 + 3 * M) = Ok (0, 9) /\
  claim_unlocked b (T0 + 3 * M) = Ok 0 /\
  exec (Some s) (Claim (ctx (T0 + 3 * M))) = (Some s, Err (VErr ClaimNotAllowed)) /\
  vesting_progress b (T0 + 4 * M) = Ok (1, 9) /\
  claim_unlocked b (T0 + 4 * M) = Ok 133333 /\
  claim_calc b (T0 + 4 * M) = Ok 133333 /\
  exec (Some s) (Claim (ctx (T0 + 4 * M)))
  = (Some (set_beneficiaries da [set_claimed_tokens b 133333]), Ok tt).
Proof.
  intros b s ctx. unfold M in *.
  assert (E2 : months_elapsed_of b (T0 + 3 * SECONDS_PER_MONTH - 1) = Ok 2).
  { replace (T0 + 3 * SECONDS_PER_MONTH - 1)
      with (start_time b + (2 * SECONDS_PER_MONTH + (SECONDS_PER_MONTH - 1)))
      by (simpl; lia).
    apply months_elapsed_offset; unfold I64_MAX, SECONDS_PER_MONTH in *; lia. }
  assert (E3 : months_elapsed_of b (T0 + 3 * SECONDS_PER_MONTH) = Ok 3).
  { replace (T0 + 3 * SECONDS_PER_MONTH)
      with (start_time b + (3 * SECONDS_PER_MONTH + 0)) by (simpl; lia).
    apply months_elapsed_offset; unfold I64_MAX, SECONDS_PER_MONTH in *; lia. }
  assert (E4 : months_elapsed_of b (T0 + 4 * SECONDS_PER_MONTH) = Ok 4).
  { replace (T0 + 4 * SECONDS_PER_MONTH)
      with (start_time b + (4 * SECONDS_PER_MONTH + 0)) by (simpl; lia).
    apply months_elapsed_offset; unfold I64_MAX, SECONDS_PER_MONTH in *; lia. }
  assert (P2 : claim_calc b (T0 + 3 * SECONDS_PER_MONTH - 1) = Err (VErr CliffNotReached)).
  { unfold claim_calc, claim_unlocked, vesting_progress. rewrite E2. reflexivity. }
  assert (P3 : vesting_progress b (T0 + 3 * SECONDS_PER_MONTH) = Ok (0, 9)).
  { unfold vesting_progress. rewrite E3. reflexivity. }
  assert (P4 : vesting_progress b (T0 + 4 * SECONDS_PER_MONTH) = Ok (1, 9)).
  { unfold vesting_progress. rewrite E4. reflexivity. }
  assert (U3 : claim_unlocked b (T0 + 3 * SECONDS_PER_MONTH) = Ok 0).
  { unfold claim_unlocked. rewrite P3. reflexivity. }
  assert (U4 : claim_unlocked b (T0 + 4 * SECONDS_PER_MONTH) = Ok 133333).
  { unfold claim_unlocked. rewrite P4. reflexivity. }
  assert (C3 : claim_calc b (T0 + 3 * SECONDS_PER_MONTH) = Err (VErr ClaimNotAllowed)).
  { unfold claim_calc. rewrite U3. reflexivity. }
  assert (C4 : claim_calc b (T0 + 4 * SECONDS_PER_MONTH) = Ok 133333).
  { unfold claim_calc. rewrite U4. reflexivity. }
  repeat split; try assumption.
  - unfold s. rewrite exec_claim_single by reflexivity. simpl cl_now.
    rewrite P2. reflexivity.
  - unfold s. rewrite exec_claim_single by reflexivity. simpl cl_now.
    rewrite C3. reflexivity.
  - unfold s. rewrite exec_claim_single by reflexivity. simpl cl_now.
    rewrite C4.
    assert (Hge : (escrow_amount >=? 133333) = true) by (apply Z.geb_le; lia).
    cbn.
    change (u64_try_from 133333) with (Some 133333). cbn [ok_or].
    unfold require. rewrite Hge.
    change (checked_add_u64 0 133333) with (Some 133333). reflexivity.
Qed.

(** Case analysis on the [let?] chain of a hypothesis. *)
Ltac res_destruct H :=
  repeat match type of H with
  | context [res_bind ?r _] =>
      let E := fresh "E" in
      destruct r eqn:E; cbn [res_bind] in H; try discriminate H
  | context [if ?c then _ else _] =>
      let E := fresh "E" in
      destruct c eqn:E; try discriminate H
  end.

Lemma sub_u64_ok (a b d : Z) : sub_u64 a b = Ok d -> d = a - b /\ 0 <= d.
Proof.
  unfold sub_u64. destruct (Z.leb_spec 0 (a - b)); intros H'; inversion H'; lia.
Qed.

Lemma require_ok (c : bool) (e : VestingError) (u : unit) :
  require c e = Ok u -> c = true.
Proof. destruct c; [reflexivity | discriminate]. Qed.

(** What [vesting_progress] returns when it succeeds. *)
Lemma vesting_progress_ok (b : Beneficiary) (now mv vm : Z) :
  vesting_progress b now = Ok (mv, vm) ->
  vm = total_months b - cliff_months b /\ 0 < vm /\ 0 <= mv <= vm.
Proof.
  intros H. unfold vesting_progress in H.
  res_destruct H. inversion H; subst.
  repeat match goal with
  | E : sub_u64 _ _ = Ok _ |- _ => apply sub_u64_ok in E as [-> ?]
  | E : require _ _ = Ok _ |- _ => apply require_ok, Z.gtb_lt in E
  end.
  lia.
Qed.

Lemma months_elapsed_ok (b : Beneficiary) (now : Z) :
  exists me, months_elapsed_of b now = Ok me.
Proof.
  unfold months_elapsed_of, checked_div_i64.
  destruct (now >=? start_time b); [|eauto].
  simpl. rewrite andb_false_r. simpl. eauto.
Qed.

(** The u128 product [allocated * months_vested] stays below [2^128] and
    the divisor is non-zero, so [unlocked_of] succeeds, with at most
    [allocated]. *)
Lemma unlocked_of_ok (allocated mv vm : Z) :
  in_u64 allocated -> 0 <= mv <= vm -> 0 < vm <= 255 ->
  exists u, unlocked_of allocated mv vm = Ok u /\ 0 <= u <= allocated.
Proof.
  unfold in_u64, U64_MAX. intros Ha Hmv Hvm. unfold unlocked_of.
  destruct (Z.geb_spec mv vm).
  - exists allocated. split; [reflexivity | lia].
  - unfold checked_mul_u128, checked_div_u128.
    destruct (Z.leb_spec (allocated * mv) U128_MAX) as [_ | Hbig].
    + destruct (Z.eqb_spec vm 0); [lia|]. cbn.
      exists (allocated * mv / vm). split; [reflexivity|]. split.
      * apply Z.div_pos; nia.
      * apply Z.div_le_upper_bound; nia.
    + exfalso. unfold U128_MAX in Hbig. nia.
Qed.

Lemma months_elapsed_not_overflow (b : Beneficiary) (now : Z) (e : Error) :
  months_elapsed_of b now = Err e -> False.
Proof.
  destruct (months_elapsed_ok b now) as [me Hme]. rewrite Hme. discriminate.
Qed.

Lemma vesting_progress_errors (b : Beneficiary) (now : Z) (e : Error) :
  vesting_progress b now = Err e ->
  e = ArithmeticPanic \/ e = VErr InvalidVestingConfig \/ e = VErr CliffNotReached.
Proof.
  unfold vesting_progress, sub_u64, require.
  destruct (0 <=? total_months b - cliff_months b); cbn [res_bind];
    [| intros H; inversion H; auto].
  destruct (total_months b - cliff_months b >? 0); cbn [res_bind];
    [| intros H; inversion H; auto].
  destruct (months_elapsed_of b now) eqn:Eme; cbn [res_bind];
    [| intros; exfalso; eapply months_elapsed_not_overflow; eauto].
  destruct (a <? cliff_months b); [intros H; inversion H; auto|].
  destruct (0 <=? a - cliff_months b); cbn [res_bind];
    intros H; inversion H; auto.
Qed.

(** C7.  Once [months_vested] reaches [vesting_span = total_months -
    cliff_months] (it never exceeds it), the claim computes
    [unlocked = allocated_tokens] exactly, with no rounding loss. *)
Theorem full_vesting_unlocks_allocation (b : Beneficiary) (now mv vm : Z)
    (H : vesting_progress b now = Ok (mv, vm)) (Hfull : vm <= mv) :
  mv = vm /\ vm = total_months b - cliff_months b /\
  claim_unlocked b now = Ok (allocated_tokens b).
Proof.
  pose proof (vesting_progress_ok _ _ _ _ H) as (Hvm & Hpos & Hmv).
  split; [lia | split; [exact Hvm|]].
  unfold claim_unlocked. rewrite H. cbn [res_bind fst snd]. unfold unlocked_of.
  destruct (Z.geb_spec mv vm); [reflexivity | lia].
Qed.

(** C8.  For a beneficiary with u64 [allocated_tokens] and u8 month
    counts, the u128 computation of [unlocked] never takes its
    [MathOverflow] branches: whenever [claim] reaches it
    ([vesting_span > 0], [months_vested <= vesting_span]), the product
    fits and the divisor is non-zero, and the whole computation of
    [unlocked] never fails with [MathOverflow]. *)
Theorem unlocked_no_math_overflow (b : Beneficiary) (now : Z)
    (Ha : in_u64 (allocated_tokens b)) (Hc : in_u8 (cliff_months b))
    (Ht : in_u8 (total_months b)) :
  (forall mv vm, vesting_progress b now = Ok (mv, vm) ->
     0 < vm <= 255 /\ 0 <= mv <= vm /\
     checked_mul_u128 (allocated_tokens b) mv = Some (allocated_tokens b * mv) /\
     checked_div_u128 (allocated_tokens b * mv) vm = Some (allocated_tokens b * mv / vm) /\
     exists u, unlocked_of (allocated_tokens b) mv vm = Ok u) /\
  claim_unlocked b now <> Err (VErr MathOverflow).
Proof.
  unfold in_u8, in_u64, U64_MAX in *.
  assert (Hprog : forall mv vm, vesting_progress b now = Ok (mv, vm) ->
            0 < vm <= 255 /\ 0 <= mv <= vm).
  { intros mv vm H. apply vesting_progress_ok in H. lia. }
  split.
  - intros mv vm H. destruct (Hprog _ _ H) as [Hvm Hmv].
    split; [exact Hvm | split; [exact Hmv|]].
    split; [|split].
    + unfold checked_mul_u128. destruct (Z.leb_spec (allocated_tokens b * mv) U128_MAX);
        [reflexivity | unfold U128_MAX in *; nia].
    + unfold checked_div_u128. destruct (Z.eqb_spec vm 0); [lia | reflexivity].
    + destruct (unlocked_of_ok (allocated_tokens b) mv vm) as [u [Hu _]];
        [unfold in_u64, U64_MAX; lia | lia | lia | eauto].
  - unfold claim_unlocked.
    destruct (vesting_progress b now) as [[mv vm] | e] eqn:Ep; cbn [res_bind fst snd].
    + destruct (Hprog _ _ eq_refl).
      destruct (unlocked_of_ok (allocated_tokens b) mv vm) as [u [-> _]];
        [unfold in_u64, U64_MAX; lia | lia | lia | discriminate].
    + intros He. inversion He; subst.
      destruct (vesting_progress_errors _ _ _ Ep) as [? | [? | ?]]; discriminate.
Qed.

Lemma sub_u64_le (a b : Z) : b <= a -> sub_u64 a b = Ok (a - b).
Proof. intros H. unfold sub_u64. destruct (Z.leb_spec 0 (a - b)); [reflexivity | lia]. Qed.

(** Before the end of the cliff, the calculator stops: with
    [CliffNotReached] when there is a cliff, with [ClaimNotAllowed] (nothing
    unlocked yet) when [cliff_months = 0] and [now] is before [start_time]. *)
Lemma claim_calc_before_cliff (b : Beneficiary) (now : Z) :
  in_u8 (cliff_months b) -> cliff_months b < total_months b ->
  0 <= claimed_tokens b ->
  now < start_time b + cliff_months b * SECONDS_PER_MONTH ->
  claim_calc b now
  = Err (VErr (if cliff_months b =? 0 then ClaimNotAllowed else CliffNotReached)).
Proof.
  unfold in_u8. intros Hc Hct Hcl Hnow.
  unfold claim_calc, claim_unlocked, vesting_progress.
  rewrite sub_u64_le by lia. cbn [res_bind].
  unfold require at 1. destruct (Z.gtb_spec (total_months b - cliff_months b) 0); [|lia].
  cbn [res_bind].
  destruct (Z.ltb_spec now (start_time b)) as [Hlt | Hge].
  - rewrite months_elapsed_before_start by exact Hlt. cbn [res_bind].
    destruct (Z.eqb_spec (cliff_months b) 0) as [H0 | H0].
    + rewrite H0. cbn [Z.ltb Z.compare].
      rewrite sub_u64_le by lia. cbn [res_bind fst snd].
      replace (Z.min (0 - 0) (total_months b - 0)) with 0 by lia.
      unfold unlocked_of.
      destruct (Z.geb_spec 0 (total_months b - 0)); [lia|].
      unfold checked_mul_u128, checked_div_u128. rewrite Z.mul_0_r.
      change (0 <=? U128_MAX) with true. cbn [ok_or res_bind].
      destruct (Z.eqb_spec (total_months b - 0) 0); [lia|]. cbn [ok_or res_bind].
      rewrite Z.div_0_l by lia.
      unfold saturating_sub_unsigned, require.
      destruct (Z.gtb_spec (Z.max 0 (0 - claimed_tokens b)) 0); [lia | reflexivity].
    + destruct (Z.ltb_spec 0 (cliff_months b)); [reflexivity | lia].
  - assert (Hc0 : cliff_months b <> 0) by (intros E; rewrite E in Hnow; lia).
    rewrite months_elapsed_after_start by (unfold I64_MAX, SECONDS_PER_MONTH in *; lia).
    cbn [res_bind].
    assert (Hm : (now - start_time b) / SECONDS_PER_MONTH < cliff_months b).
    { apply Z.div_lt_upper_bound; unfold SECONDS_PER_MONTH in *; lia. }
    destruct (Z.ltb_spec ((now - start_time b) / SECONDS_PER_MONTH) (cliff_months b)); [|lia].
    destruct (Z.eqb_spec (cliff_months b) 0); [lia | reflexivity].
Qed.

(** The [claim] transaction of a caller found in the list, with the escrow
    checks passed, is decided by the calculator. *)
Lemma exec_claim_calc_err (da : DataAccount) (c : ClaimCtx) (index : nat)
    (b : Beneficiary) (e : Error) :
  cl_escrow_key_ok c = true -> cl_escrow_bump_ok c = true ->
  list_find (fun b' => key b' = cl_sender c) (beneficiaries da) = Some (index, b) ->
  claim_calc b (cl_now c) = Err e ->
  exec (Some da) (Claim c) = (Some da, Err e).
Proof.
  intros Hkey Hbump Hfind Hcalc. unfold exec, claim. rewrite Hkey, Hbump.
  cbn [bind lift require get]. rewrite Hfind. cbn [bind lift]. rewrite Hcalc.
  reflexivity.
Qed.

(** C3, as the code has it.  For the beneficiary a [claim] resolves for its
    caller (escrow checks passed, [cliff_months < total_months]) and any
    [now < start_time + cliff_months * M], the claim fails and the account
    is unchanged: with [CliffNotReached] when [cliff_months > 0], and with
    [ClaimNotAllowed] when [cliff_months = 0] (then [now < start_time]). *)
Theorem claim_before_cliff_fails (da : DataAccount) (c : ClaimCtx)
    (index : nat) (b : Beneficiary)
    (Hkey : cl_escrow_key_ok c = true) (Hbump : cl_escrow_bump_ok c = true)
    (Hfind : list_find (fun b' => key b' = cl_sender c) (beneficiaries da)
             = Some (index, b))
    (Hc : in_u8 (cliff_months b)) (Hct : cliff_months b < total_months b)
    (Hcl : in_u64 (claimed_tokens b))
    (Hnow : cl_now c < start_time b + cliff_months b * SECONDS_PER_MONTH) :
  exec (Some da) (Claim c)
  = (Some da, Err (VErr (if cliff_months b =? 0 then ClaimNotAllowed
                         else CliffNotReached))).
Proof.
  apply (exec_claim_calc_err da c index b); try assumption.
  apply claim_calc_before_cliff; unfold in_u64 in Hcl; auto; lia.
Qed.

(** ** Facts about the sweep *)

Lemma earliest_withdraw_time_ok (b : Beneficiary) (t : Z) :
  earliest_withdraw_time b = Ok t ->
  t = Z.max (start_time b + cliff_months b * SECONDS_PER_MONTH + GRACE_PERIOD)
            (start_time b + total_months b * SECONDS_PER_MONTH + GRACE_PERIOD).
Proof.
  unfold earliest_withdraw_time, add_i64, mul_i64.
  repeat match goal with
  | |- context [if ?c then _ else _] => destruct c; cbn [res_bind]; try discriminate
  end.
  intros H. inversion H. lia.
Qed.

Lemma earliest_withdraw_time_set_claimed (b : Beneficiary) (v : Z) :
  earliest_withdraw_time (set_claimed_tokens b v) = earliest_withdraw_time b.
Proof. reflexivity. Qed.

Lemma swept_refl (now : Z) (bs : list Beneficiary) : Forall2 (swept now) bs bs.
Proof. induction bs; constructor; [left; reflexivity | assumption]. Qed.

Lemma withdraw_loop_swept (now : Z) (bs : list Beneficiary) (tot p : Z) :
  Forall2 (swept now) bs (fst (withdraw_loop now bs tot p)).
Proof.
  revert tot p. induction bs as [|b rest IH]; intros tot p; cbn [withdraw_loop].
  - constructor.
  - destruct (earliest_withdraw_time b) as [t|e] eqn:Et.
    + destruct ((now >? t) && (saturating_sub_unsigned (allocated_tokens b)
                                 (claimed_tokens b) >? 0)) eqn:Esw.
      * apply andb_true_iff in Esw as [E1 E2].
        apply Z.gtb_lt in E1. apply Z.gtb_lt in E2.
        unfold saturating_sub_unsigned in E2.
        assert (Hsw : swept now b (set_claimed_tokens b (allocated_tokens b))).
        { right. exists t. repeat split; auto; lia. }
        destruct (checked_add_u64 tot _) as [tot'|].
        -- destruct (checked_add_u32 p 1) as [p'|].
           ++ specialize (IH tot' p').
              destruct (withdraw_loop now rest tot' p') as [rest' r].
              constructor; assumption.
           ++ constructor; [assumption | apply swept_refl].
        -- apply swept_refl.
      * specialize (IH tot p).
        destruct (withdraw_loop now rest tot p) as [rest' r].
        constructor; [left; reflexivity | assumption].
    + apply swept_refl.
Qed.

(** A loop that ran to its end leaves nothing more to sweep at the same
    instant: run again on its output, it changes nothing and finds no
    unclaimed tokens. *)
Lemma withdraw_loop_rerun (now : Z) (bs bs' : list Beneficiary) (tot p : Z)
    (totals : Z * Z) :
  withdraw_loop now bs tot p = (bs', Ok totals) ->
  forall tot2 p2, withdraw_loop now bs' tot2 p2 = (bs', Ok (tot2, p2)).
Proof.
  revert bs' tot p. induction bs as [|b rest IH]; intros bs' tot p H tot2 p2;
    cbn [withdraw_loop] in H.
  - inversion H; subst. reflexivity.
  - destruct (earliest_withdraw_time b) as [t|e] eqn:Et; [|discriminate H].
    destruct ((now >? t) && (saturating_sub_unsigned (allocated_tokens b)
                               (claimed_tokens b) >? 0)) eqn:Esw.
    + destruct (checked_add_u64 tot _) as [tot'|]; [|discriminate H].
      destruct (checked_add_u32 p 1) as [p'|]; [|discriminate H].
      destruct (withdraw_loop now rest tot' p') as [rest' r] eqn:Erest.
      inversion H; subst. cbn [withdraw_loop].
      rewrite earliest_withdraw_time_set_claimed, Et.
      unfold saturating_sub_unsigned at 1. cbn [allocated_tokens claimed_tokens set_claimed_tokens].
      rewrite Z.sub_diag. cbn [Z.max Z.gtb Z.compare]. rewrite andb_false_r.
      rewrite (IH rest' tot' p' Erest tot2 p2). reflexivity.
    + destruct (withdraw_loop now rest tot p) as [rest' r] eqn:Erest.
      inversion H; subst. cbn [withdraw_loop]. rewrite Et, Esw.
      rewrite (IH rest' tot p Erest tot2 p2). reflexivity.
Qed.

(** A successful [withdraw] body: the checks passed, the loop ran to its
    end with a positive total, and the account holds the loop's list. *)
Lemma withdraw_ok (c : WithdrawCtx) (da s' : DataAccount) (u : unit) :
  withdraw c da = (s', Ok u) ->
  wd_escrow_key_ok c = true /\ wd_escrow_bump_ok c = true /\
  authority da = wd_admin c /\
  s' = set_beneficiaries da (beneficiaries s') /\
  exists totals,
    withdraw_loop (wd_now c) (beneficiaries da) 0 0 = (beneficiaries s', Ok totals) /\
    0 < fst totals.
Proof.
  unfold withdraw, bind, lift, get, put, require, token_transfer.
  destruct (wd_escrow_key_ok c); [|discriminate].
  destruct (wd_escrow_bump_ok c); [|discriminate].
  destruct (N.eqb_spec (authority da) (wd_admin c)); [|discriminate].
  destruct (withdraw_loop (wd_now c) (beneficiaries da) 0 0) as [bs' [totals|err]] eqn:El;
    [|discriminate].
  destruct (Z.gtb_spec (fst totals) 0); [|discriminate].
  destruct (wd_escrow_amount c >=? fst totals); [|discriminate].
  destruct (wd_transfer_ok c); [|discriminate].
  intros Hw. inversion Hw; subst. cbn [beneficiaries set_beneficiaries].
  repeat split; auto. exists totals. auto.
Qed.

Lemma exec_ok_withdraw (da da' : DataAccount) (c : WithdrawCtx) :
  exec (Some da) (Withdraw c) = (Some da', Ok tt) -> withdraw c da = (da', Ok tt).
Proof.
  unfold exec, commit. destruct (withdraw c da) as [s' [[]|e]]; intros H; inversion H; auto.
Qed.

(** ** [change_admin] facts *)

Lemma exec_change_admin_ok (da : DataAccount) (cur new : Pubkey) :
  authority da = cur -> new <> cur -> new <> default_pubkey ->
  exec (Some da) (ChangeAdmin (mkChangeAdminCtx cur new))
  = (Some (set_authority da new), Ok tt).
Proof.
  intros Hauth Hsame Hnull. unfold exec, commit, change_admin, bind, lift, get, put, require.
  cbn [ca_current_admin ca_new_admin].
  rewrite Hauth, N.eqb_refl.
  destruct (N.eqb_spec new cur); [contradiction|].
  destruct (N.eqb_spec new default_pubkey); [contradiction|].
  reflexivity.
Qed.

(** C4.  A [withdraw] transaction (successful or not) keeps the list's
    length and changes an entry only by setting its [claimed_tokens] to
    [allocated_tokens], and only when
    [now > start_time + total_months * M + 6 * M]; every other entry keeps
    its [claimed_tokens].  The code's bound
    [max(cliff_end + grace, vesting_end + grace)] is [vesting_end + grace]
    whenever [cliff_months < total_months]. *)
Theorem withdraw_frame (da : DataAccount) (c : WithdrawCtx) (l' : Ledger)
    (r : result unit) (H : exec (Some da) (Withdraw c) = (l', r)) :
  (exists da', l' = Some da' /\
     length (beneficiaries da') = length (beneficiaries da) /\
     forall (i : nat) (b b' : Beneficiary),
       beneficiaries da !! i = Some b -> beneficiaries da' !! i = Some b' ->
       (b' = b \/
        (wd_now c > start_time b + total_months b * SECONDS_PER_MONTH
                    + 6 * SECONDS_PER_MONTH /\
         b' = set_claimed_tokens b (allocated_tokens b))) /\
       (~ (wd_now c > start_time b + total_months b * SECONDS_PER_MONTH
                      + 6 * SECONDS_PER_MONTH) ->
        claimed_tokens b' = claimed_tokens b)) /\
  (forall (b : Beneficiary) (t : Z), cliff_months b < total_months b ->
     earliest_withdraw_time b = Ok t ->
     t = start_time b + total_months b * SECONDS_PER_MONTH + GRACE_PERIOD).
Proof.
  split.
  - unfold exec, commit in H.
    destruct (withdraw c da) as [s' [u|e]] eqn:Ew; [destruct u|];
      inversion H; subst; clear H; eexists; (split; [reflexivity|]).
    + apply withdraw_ok in Ew as (_ & _ & _ & _ & totals & Hl & _).
      pose proof (withdraw_loop_swept (wd_now c) (beneficiaries da) 0 0) as Hsw.
      rewrite Hl in Hsw. cbn [fst] in Hsw.
      split; [symmetry; eapply Forall2_length; eauto|].
      intros i b b' Hb Hb'.
      assert (Hs : swept (wd_now c) b b') by (eapply Forall2_lookup_lr; eauto).
      destruct Hs as [-> | (t & Et & Hgt & Hlt & ->)].
      * split; [left; reflexivity | reflexivity].
      * apply earliest_withdraw_time_ok in Et. unfold GRACE_PERIOD in Et.
        split; [right; split; [lia | reflexivity]|].
        intros Hn. exfalso. apply Hn. lia.
    + split; [reflexivity|]. intros i b b' Hb Hb'. rewrite Hb in Hb'.
      inversion Hb'; subst. split; [left; reflexivity | reflexivity].
  - intros b t Hct Et. apply earliest_withdraw_time_ok in Et. subst t.
    assert (cliff_months b * SECONDS_PER_MONTH < total_months b * SECONDS_PER_MONTH)
      by (apply Z.mul_lt_mono_pos_r; [unfold SECONDS_PER_MONTH; lia | exact Hct]).
    lia.
Qed.

(** C6.  Whatever the instruction and whatever its failure, a failed
    transaction leaves the ledger as it was (in particular a [withdraw]
    that fails with [InsufficientBalance] after its sweep loop leaves every
    [claimed_tokens] unchanged), because the runtime commits the account
    only on success. *)
Theorem failed_instruction_no_effect (l : Ledger) (i : Instruction) (e : Error)
    (H : snd (exec l i) = Err e) :
  fst (exec l i) = l.
Proof.
  revert H. destruct i as [c|c|c|c], l as [s|]; cbn [exec]; try reflexivity.
  - destruct (initialize c default_data_account) as [s' [[]|e']]; cbn; congruence.
  - unfold commit. destruct (claim c s) as [s' [[]|e']]; cbn; congruence.
  - unfold commit. destruct (withdraw c s) as [s' [[]|e']]; cbn; congruence.
  - unfold commit. destruct (change_admin c s) as [s' [[]|e']]; cbn; congruence.
Qed.

(** C9, as the code has it.  [change_admin] carries no one-time flag: the
    current authority can hand the role to any key other than itself and
    the null key, and the new authority can hand it on again in turn. *)
Theorem change_admin_repeatable (da : DataAccount) (cur new new2 : Pubkey)
    (Hauth : authority da = cur) (Hsame : new <> cur)
    (Hnull : new <> default_pubkey)
    (Hsame2 : new2 <> new) (Hnull2 : new2 <> default_pubkey) :
  exec (Some da) (ChangeAdmin (mkChangeAdminCtx cur new))
  = (Some (set_authority da new), Ok tt) /\
  exec (Some (set_authority da new)) (ChangeAdmin (mkChangeAdminCtx new new2))
  = (Some (set_authority (set_authority da new) new2), Ok tt).
Proof.
  split; apply exec_change_admin_ok; auto.
Qed.

(** C10.  Right after a successful [withdraw] at time [now], the same
    admin repeating [withdraw] at the same [now] (with the same escrow
    account) fails with [NoUnclaimedTokens] and changes nothing. *)
Theorem withdraw_repeat_no_unclaimed (da da' : DataAccount) (c c' : WithdrawCtx)
    (H : exec (Some da) (Withdraw c) = (Some da', Ok tt))
    (Hadmin : wd_admin c' = wd_admin c) (Hnow : wd_now c' = wd_now c)
    (Hkey : wd_escrow_key_ok c' = wd_escrow_key_ok c)
    (Hbump : wd_escrow_bump_ok c' = wd_escrow_bump_ok c) :
  exec (Some da') (Withdraw c') = (Some da', Err (VErr NoUnclaimedTokens)).
Proof.
  apply exec_ok_withdraw, withdraw_ok in H
    as (Hk & Hb & Ha & Hda' & totals & Hl & _).
  pose proof (withdraw_loop_rerun _ _ _ _ _ _ Hl 0 0) as Hre.
  unfold exec, commit, withdraw, bind, lift, get, put, require.
  rewrite Hkey, Hbump, Hk, Hb, Hnow, Hadmin.
  replace (authority da') with (authority da) by (rewrite Hda'; reflexivity).
  rewrite Ha, N.eqb_refl, Hre. reflexivity.
Qed.

(** ** Claimed amounts across transactions *)

Lemma claim_unlocked_le (b : Beneficiary) (now u : Z) :
  0 <= allocated_tokens b -> claim_unlocked b now = Ok u ->
  0 <= u <= allocated_tokens b.
Proof.
  intros Ha. unfold claim_unlocked.
  destruct (vesting_progress b now) as [[mv vm]|e] eqn:Ep; cbn [res_bind fst snd];
    [|discriminate].
  apply vesting_progress_ok in Ep as (_ & Hvm & Hmv).
  unfold unlocked_of, checked_mul_u128, checked_div_u128.
  destruct (mv >=? vm); [intros H; inversion H; lia|].
  destruct (allocated_tokens b * mv <=? U128_MAX); cbn [ok_or res_bind]; [|discriminate].
  destruct (vm =? 0); cbn [ok_or]; [discriminate|].
  intros H; inversion H; subst. split.
  - apply Z.div_pos; nia.
  - apply Z.div_le_upper_bound; nia.
Qed.

(** A claimable amount is positive and tops [claimed] up to at most
    [allocated]. *)
Lemma claim_calc_ok (b : Beneficiary) (now claimable : Z) :
  0 <= allocated_tokens b -> claim_calc b now = Ok claimable ->
  0 < claimable /\ claimed_tokens b + claimable <= allocated_tokens b.
Proof.
  intros Ha. unfold claim_calc.
  destruct (claim_unlocked b now) as [u|e] eqn:Eu; cbn [res_bind]; [|discriminate].
  apply claim_unlocked_le in Eu; [|exact Ha].
  unfold require, saturating_sub_unsigned.
  destruct (Z.gtb_spec (Z.max 0 (u - claimed_tokens b)) 0); cbn [res_bind];
    [|discriminate].
  intros Hc; inversion Hc; subst. lia.
Qed.

(** A successful [claim] body stores [claimed + claimable] at the index of
    the caller's entry. *)
Lemma claim_ok (c : ClaimCtx) (da s' : DataAccount) (u : unit) :
  claim c da = (s', Ok u) ->
  exists index b claimable,
    list_find (fun b' => key b' = cl_sender c) (beneficiaries da) = Some (index, b) /\
    claim_calc b (cl_now c) = Ok claimable /\
    s' = store_claimed index (claimed_tokens b + claimable) da.
Proof.
  unfold claim, bind, lift, get, modify, require, token_transfer.
  destruct (cl_escrow_key_ok c); [|discriminate].
  destruct (cl_escrow_bump_ok c); [|discriminate].
  destruct (list_find _ (beneficiaries da)) as [[index b]|] eqn:Ef; [|discriminate].
  destruct (claim_calc b (cl_now c)) as [claimable|e] eqn:Ec; [|discriminate].
  unfold u64_try_from, checked_add_u64.
  destruct (claimable <=? U64_MAX); cbn [ok_or]; [|discriminate].
  destruct (cl_escrow_amount c >=? claimable); [|discriminate].
  destruct (claimed_tokens b + claimable <=? U64_MAX); cbn [ok_or]; [|discriminate].
  destruct (cl_transfer_ok c); [|discriminate].
  intros H; inversion H; subst. eauto 6.
Qed.

Lemma store_claimed_lookup (da : DataAccount) (index j : nat) (b : Beneficiary) (v : Z) :
  beneficiaries da !! index = Some b ->
  beneficiaries (store_claimed index v da) !! j
  = if decide (j = index) then Some (set_claimed_tokens b v) else beneficiaries da !! j.
Proof.
  intros Hb. unfold store_claimed. rewrite Hb. cbn [beneficiaries set_beneficiaries].
  case_decide as Hj.
  - subst. apply list_lookup_insert_eq. eapply lookup_lt_Some; eauto.
  - apply list_lookup_insert_ne. congruence.
Qed.

Lemma change_admin_ok (c : ChangeAdminCtx) (da s' : DataAccount) (u : unit) :
  change_admin c da = (s', Ok u) -> beneficiaries s' = beneficiaries da.
Proof.
  unfold change_admin, bind, lift, get, put, require.
  repeat match goal with
  | |- context [if ?c then _ else _] => destruct c; try discriminate
  end.
  intros H; inversion H; reflexivity.
Qed.

Lemma claims_same_beneficiaries (da da' : DataAccount) :
  beneficiaries da' = beneficiaries da -> claims_within da ->
  claims_within da' /\ claims_progress da da'.
Proof.
  intros Heq Hinv. unfold claims_within, claims_progress, claim_progress.
  rewrite Heq. split; [exact Hinv|]. split; [reflexivity|].
  intros i b b' Hb Hb'. rewrite Hb in Hb'. inversion Hb'; subst. repeat split; lia.
Qed.

Lemma claims_within_Forall (da : DataAccount) :
  Forall claim_bounds (beneficiaries da) -> claims_within da.
Proof. intros H i b Hb. eapply Forall_lookup_1; eauto. Qed.

(** One transaction keeps the bounds and only raises [claimed_tokens]. *)
Lemma exec_claims_step (da : DataAccount) (i : Instruction) :
  claims_within da ->
  exists da', fst (exec (Some da) i) = Some da' /\
    claims_within da' /\ claims_progress da da'.
Proof.
  intros Hinv.
  destruct i as [c|c|c|c]; cbn [exec]; unfold commit.
  - exists da. split; [reflexivity|].
    apply claims_same_beneficiaries; [reflexivity | exact Hinv].
  - destruct (claim c da) as [s' [[]|e]] eqn:Ec; cbn [fst];
      [| exists da; split; [reflexivity|];
         apply claims_same_beneficiaries; [reflexivity | exact Hinv]].
    exists s'. split; [reflexivity|].
    apply claim_ok in Ec as (index & b & claimable & Hf & Hcalc & ->).
    apply list_find_Some in Hf as (Hb & _ & _).
    pose proof (Hinv _ _ Hb) as Hbb. unfold claim_bounds, in_u64 in Hbb.
    apply claim_calc_ok in Hcalc as [Hpos Hle]; [|lia].
    split.
    + intros j b'' Hj. rewrite (store_claimed_lookup _ _ _ _ _ Hb) in Hj.
      case_decide.
      * inversion Hj; subst. unfold claim_bounds, in_u64. cbn. lia.
      * exact (Hinv _ _ Hj).
    + split.
      * unfold store_claimed. rewrite Hb. cbn [beneficiaries set_beneficiaries].
        apply length_insert.
      * intros j b0 b' Hb0 Hb'. rewrite (store_claimed_lookup _ _ _ _ _ Hb) in Hb'.
        unfold claim_progress. case_decide.
        -- subst. rewrite Hb in Hb0. inversion Hb0; inversion Hb'; subst.
           cbn. repeat split; lia.
        -- rewrite Hb0 in Hb'. inversion Hb'; subst. repeat split; lia.
  - destruct (withdraw c da) as [s' [[]|e]] eqn:Ew; cbn [fst];
      [| exists da; split; [reflexivity|];
         apply claims_same_beneficiaries; [reflexivity | exact Hinv]].
    exists s'. split; [reflexivity|].
    apply withdraw_ok in Ew as (_ & _ & _ & _ & totals & Hl & _).
    pose proof (withdraw_loop_swept (wd_now c) (beneficiaries da) 0 0) as Hsw.
    rewrite Hl in Hsw. cbn [fst] in Hsw.
    split.
    + intros j b'' Hj.
      destruct (Forall2_lookup_r _ _ _ _ _ Hsw Hj) as (b & Hb & Hs).
      pose proof (Hinv _ _ Hb) as Hbb.
      destruct Hs as [-> | (t & _ & _ & Hlt & ->)]; [exact Hbb|].
      unfold claim_bounds, in_u64 in *. cbn. lia.
    + split; [symmetry; eapply Forall2_length; eauto|].
      intros j b b' Hb Hb'.
      assert (Hs : swept (wd_now c) b b') by (eapply Forall2_lookup_lr; eauto).
      unfold claim_progress.
      destruct Hs as [-> | (t & _ & _ & Hlt & ->)]; cbn; repeat split; lia.
  - destruct (change_admin c da) as [s' [[]|e]] eqn:Ec; cbn [fst];
      [| exists da; split; [reflexivity|];
         apply claims_same_beneficiaries; [reflexivity | exact Hinv]].
    exists s'. split; [reflexivity|].
    apply claims_same_beneficiaries; [eapply change_admin_ok; eauto | exact Hinv].
Qed.

Lemma exec_all_claims (da : DataAccount) (is : list Instruction) :
  claims_within da -> exists d, exec_all (Some da) is = Some d /\ claims_within d.
Proof.
  revert da. induction is as [|i rest IH]; intros da Hinv; cbn [exec_all].
  - eauto.
  - destruct (exec_claims_step da i Hinv) as (da' & -> & Hinv' & _). eauto.
Qed.

(** C2.  Starting from a schedule whose entries satisfy
    [claimed <= allocated] (u64 amounts), after any sequence of transactions
    (claims, sweeps, and any others) every entry still has
    [claimed <= allocated], and the next transaction keeps every entry's
    terms and never lowers its [claimed_tokens]. *)
Theorem claimed_monotone_bounded (da : DataAccount) (is : list Instruction)
    (i : Instruction) (Hinv : claims_within da) :
  exists d1 d2,
    exec_all (Some da) is = Some d1 /\ fst (exec (Some d1) i) = Some d2 /\
    claims_within d1 /\ claims_within d2 /\ claims_progress d1 d2.
Proof.
  destruct (exec_all_claims da is Hinv) as (d1 & Hd1 & Hinv1).
  destruct (exec_claims_step d1 i Hinv1) as (d2 & Hd2 & Hinv2 & Hprog).
  exists d1, d2. auto.
Qed.

Lemma first_failure_app (l1 l2 : list (bool * VestingError)) :
  first_failure (l1 ++ l2)
  = match first_failure l1 with Some e => Some e | None => first_failure l2 end.
Proof.
  induction l1 as [|[ok e] l1 IH]; [reflexivity|]. cbn. destruct ok; auto.
Qed.

Lemma validate_beneficiaries_pass (now : Z) (bs : list Beneficiary) :
  now + MAX_START_DELAY <= I64_MAX -> I64_MIN <= now + MAX_START_DELAY ->
  forall (seen : gset Pubkey) (earlier : list Pubkey),
  (forall k, k ∈ seen <-> k ∈ earlier) ->
  validate_beneficiaries now seen bs = as_result (first_failure (beneficiary_pass now earlier bs)).
Proof.
  intros Hhi Hlo. induction bs as [|b rest IH]; intros seen earlier Hse; [reflexivity|].
  cbn [validate_beneficiaries beneficiary_pass]. rewrite first_failure_app.
  unfold beneficiary_checks, require. cbn [first_failure].
  destruct (total_months b >=? 1); cbn [res_bind]; [|reflexivity].
  destruct (cliff_months b <=? 48); cbn [res_bind]; [|reflexivity].
  destruct (cliff_months b <? total_months b); cbn [res_bind]; [|reflexivity].
  destruct (allocated_tokens b >? 0); cbn [res_bind]; [|reflexivity].
  destruct (start_time b >=? now); cbn [res_bind]; [|reflexivity].
  unfold add_i64.
  destruct (Z.leb_spec I64_MIN (now + MAX_START_DELAY)); [|lia].
  destruct (Z.leb_spec (now + MAX_START_DELAY) I64_MAX); [|lia].
  cbn [andb res_bind].
  destruct (start_time b <=? now + MAX_START_DELAY); cbn [res_bind]; [|reflexivity].
  destruct (cliff_months b >? 0); cbn [negb orb].
  - destruct (Z.rem (total_months b) (cliff_months b) =? 0); cbn [res_bind]; [|reflexivity].
    assert (Hkey : bool_decide (key b ∈ seen) = bool_decide (key b ∈ earlier))
      by (apply bool_decide_ext, Hse).
    rewrite Hkey. destruct (bool_decide (key b ∈ earlier)); cbn [negb res_bind]; [reflexivity|].
    apply IH. intros k. rewrite elem_of_union, elem_of_singleton, elem_of_cons.
    rewrite Hse. tauto.
  - cbn [res_bind].
    assert (Hkey : bool_decide (key b ∈ seen) = bool_decide (key b ∈ earlier))
      by (apply bool_decide_ext, Hse).
    rewrite Hkey. destruct (bool_decide (key b ∈ earlier)); cbn [negb res_bind]; [reflexivity|].
    apply IH. intros k. rewrite elem_of_union, elem_of_singleton, elem_of_cons.
    rewrite Hse. tauto.
Qed.

Lemma total_allocation_nonneg (bs : list Beneficiary) :
  Forall (fun b => 0 < allocated_tokens b) bs -> 0 <= total_allocation bs.
Proof.
  induction 1 as [|b rest Hb _ IH]; cbn; [lia|]. unfold total_allocation in IH. lia.
Qed.

(** With positive allocations the partial sums only grow, so the checked
    sum overflows exactly when the total exceeds [u64::MAX]. *)
Lemma sum_allocations_total (acc : Z) (bs : list Beneficiary) :
  0 <= acc <= U64_MAX -> Forall (fun b => 0 < allocated_tokens b) bs ->
  sum_allocations acc bs
  = if acc + total_allocation bs <=? U64_MAX then Ok (acc + total_allocation bs)
    else Err (VErr MathOverflow).
Proof.
  intros Hacc Hpos. revert acc Hacc.
  induction Hpos as [|b rest Hb Hrest IH]; intros acc Hacc; cbn [sum_allocations].
  - cbn. rewrite Z.add_0_r. destruct (Z.leb_spec acc U64_MAX); [reflexivity | lia].
  - pose proof (total_allocation_nonneg rest Hrest) as Hnn.
    unfold checked_add_u64.
    replace (acc + total_allocation (b :: rest))
      with (acc + allocated_tokens b + total_allocation rest) by (cbn; unfold total_allocation; lia).
    destruct (Z.leb_spec (acc + allocated_tokens b) U64_MAX); cbn [ok_or res_bind].
    + apply IH. lia.
    + destruct (Z.leb_spec (acc + allocated_tokens b + total_allocation rest) U64_MAX);
        [lia | reflexivity].
Qed.

Lemma beneficiary_pass_positive (now : Z) (earlier : list Pubkey) (bs : list Beneficiary) :
  first_failure (beneficiary_pass now earlier bs) = None ->
  Forall (fun b => 0 < allocated_tokens b) bs.
Proof.
  revert earlier. induction bs as [|b rest IH]; intros earlier H; [constructor|].
  cbn [beneficiary_pass] in H. rewrite first_failure_app in H.
  unfold beneficiary_checks in H. cbn [first_failure] in H.
  repeat match type of H with
  | context [if ?c then _ else _] => destruct c eqn:?; try discriminate H
  end.
  constructor; [apply Z.gtb_lt; assumption | eapply IH; eauto].
Qed.

Lemma bool_decide_nil (bs : list Beneficiary) :
  bool_decide (bs = []) = Nat.eqb (length bs) 0.
Proof. destruct bs; reflexivity. Qed.

(** C5, as the code has it.  On a fresh account, [initialize] reports the
    first failing check in this order: list non-empty, at most 50 entries,
    [amount > 0], [decimals <= 9]; then one pass over the beneficiaries in
    list order, running each one's field checks and then rejecting it if
    its key appeared earlier; then the overflow-checked sum and
    [sum <= amount].  Past all of them only the funding checks remain. *)
Theorem initialize_check_order (c : InitCtx)
    (Hhi : in_now c + MAX_START_DELAY <= I64_MAX)
    (Hlo : I64_MIN <= in_now c + MAX_START_DELAY) :
  snd (exec None (Initialize c))
  = match first_failure (ordered_checks (in_now c) (in_beneficiaries c)
                           (in_amount c) (in_decimals c)) with
    | Some e => Err (VErr e)
    | None => if in_wallet_amount c >=? in_amount c
              then (if in_transfer_ok c then Ok tt else Err TokenTransferFailed)
              else Err (VErr InsufficientBalance)
    end.
Proof.
  unfold exec, initialize, ordered_checks, bind, lift, get, put, modify, require,
    token_transfer.
  cbn [authority default_data_account set_authority].
  change (N.eqb default_pubkey default_pubkey) with true. cbv beta iota.
  rewrite bool_decide_nil. cbn [first_failure app].
  destruct (negb (Nat.eqb (length (in_beneficiaries c)) 0)); [|reflexivity].
  unfold MAX_BENEFICIARIES.
  destruct (Nat.leb (length (in_beneficiaries c)) 50); [|reflexivity].
  destruct (in_amount c >? 0); [|reflexivity].
  unfold MAX_DECIMALS.
  destruct (in_decimals c <=? 9); [|reflexivity].
  rewrite first_failure_app.
  rewrite (validate_beneficiaries_pass (in_now c) (in_beneficiaries c) Hhi Hlo ∅ [])
    by set_solver.
  destruct (first_failure (beneficiary_pass (in_now c) [] (in_beneficiaries c)))
    eqn:Ep; [reflexivity|].
  cbn [as_result].
  rewrite sum_allocations_total by (eauto using beneficiary_pass_positive;
                                    unfold U64_MAX; lia).
  rewrite Z.add_0_l. cbn [first_failure].
  destruct (total_allocation (in_beneficiaries c) <=? U64_MAX); [|reflexivity].
  destruct (total_allocation (in_beneficiaries c) <=? in_amount c); [|reflexivity].
  destruct (in_wallet_amount c >=? in_amount c); [|reflexivity].
  destruct (in_transfer_ok c); reflexivity.
Qed.

(** ** Witnesses and counterexamples *)

Lemma scenarioA_claim_witness :
  I64_MIN <= T0A /\ T0A + 4 * M <= I64_MAX /\ 133333 <= 200000 /\
  exec (Some (set_beneficiaries default_data_account [scenarioA_beneficiary 1 T0A]))
       (Claim (mkClaimCtx 1 (T0A + 4 * M) true true 200000 true))
  = (Some (set_beneficiaries default_data_account
             [set_claimed_tokens (scenarioA_beneficiary 1 T0A) 133333]), Ok tt).
Proof.
  assert (H1 : I64_MIN <= T0A) by (unfold I64_MIN, T0A; lia).
  assert (H2 : T0A + 4 * M <= I64_MAX) by (unfold T0A, M, SECONDS_PER_MONTH, I64_MAX; lia).
  assert (H3 : 133333 <= 200000) by lia.
  split; [exact H1 | split; [exact H2 | split; [exact H3|]]].
  destruct (scenarioA_claim T0A 1 200000 default_data_account H1 H2 H3)
    as (_ & _ & _ & _ & _ & _ & _ & H).
  exact H.
Defined.

Lemma claimed_monotone_bounded_witness :
  claims_within acctA /\
  exists d1 d2,
    exec_all (Some acctA) [] = Some d1 /\
    fst (exec (Some d1) (Withdraw (sweepB 1200000))) = Some d2 /\
    claims_within d1 /\ claims_within d2 /\ claims_progress d1 d2.
Proof.
  assert (H : claims_within acctA).
  { apply claims_within_Forall. repeat constructor; cbn; unfold U64_MAX; lia. }
  split; [exact H|].
  exact (claimed_monotone_bounded acctA [] (Withdraw (sweepB 1200000)) H).
Defined.

(** C3 as stated fails: without a cliff, a claim one second before the
    start is rejected with [ClaimNotAllowed], not [CliffNotReached]. *)
Lemma claim_before_cliff_counterexample :
  999 < 1000 + 0 * SECONDS_PER_MONTH /\
  exec (Some acct_no_cliff) (Claim (mkClaimCtx 1 999 true true 100 true))
  = (Some acct_no_cliff, Err (VErr ClaimNotAllowed)) /\
  snd (exec (Some acct_no_cliff) (Claim (mkClaimCtx 1 999 true true 100 true)))
  <> Err (VErr CliffNotReached).
Proof.
  split; [lia|]. split; [vm_compute; reflexivity | vm_compute; discriminate].
Qed.

Lemma claim_before_cliff_fails_witness :
  list_find (fun b' => key b' = 1%N) (beneficiaries acctA)
    = Some (0%nat, scenarioA_beneficiary 1 T0A) /\
  exec (Some acctA) (Claim (mkClaimCtx 1 (T0A + 2 * M) true true 1200000 true))
  = (Some acctA, Err (VErr CliffNotReached)).
Proof.
  assert (Hf : list_find (fun b' => key b' = 1%N) (beneficiaries acctA)
               = Some (0%nat, scenarioA_beneficiary 1 T0A)) by reflexivity.
  split; [exact Hf|].
  apply (claim_before_cliff_fails acctA (mkClaimCtx 1 (T0A + 2 * M) true true 1200000 true)
           0 (scenarioA_beneficiary 1 T0A)); try reflexivity; try exact Hf;
    cbn; unfold in_u8, in_u64, U64_MAX, T0A, M, SECONDS_PER_MONTH; lia.
Defined.

Lemma withdraw_frame_witness :
  exec (Some acctA) (Withdraw (sweepB 1200000)) = (Some acctA_swept, Ok tt) /\
  exists da', Some acctA_swept = Some da' /\
     length (beneficiaries da') = length (beneficiaries acctA) /\
     forall (i : nat) (b b' : Beneficiary),
       beneficiaries acctA !! i = Some b -> beneficiaries da' !! i = Some b' ->
       (b' = b \/
        (wd_now (sweepB 1200000) > start_time b + total_months b * SECONDS_PER_MONTH
                    + 6 * SECONDS_PER_MONTH /\
         b' = set_claimed_tokens b (allocated_tokens b))) /\
       (~ (wd_now (sweepB 1200000) > start_time b + total_months b * SECONDS_PER_MONTH
                      + 6 * SECONDS_PER_MONTH) ->
        claimed_tokens b' = claimed_tokens b).
Proof.
  assert (H : exec (Some acctA) (Withdraw (sweepB 1200000)) = (Some acctA_swept, Ok tt))
    by (vm_compute; reflexivity).
  split; [exact H|].
  exact (proj1 (withdraw_frame acctA (sweepB 1200000) (Some acctA_swept) (Ok tt) H)).
Defined.

(** C5 as stated fails: the third entry breaks a field rule (rule 3) and
    the second repeats a key (rule 4), yet [initialize] reports the
    duplicate, because one loop runs both kinds of check entry by entry. *)
Lemma initialize_order_counterexample :
  (dup_then_bad <> [] /\ (length dup_then_bad <= 50)%nat /\ 0 < 1000 /\ 6 <= 9) /\
  (exists b, In b dup_then_bad /\ total_months b < 1) /\
  exec None (Initialize init_dup_then_bad) = (None, Err (VErr DuplicateBeneficiary)).
Proof.
  split.
  { split; [discriminate|]. split; [cbn; lia|]. lia. }
  split.
  - exists (mkBeneficiary 2 100 0 (T0A + 10) 0 0). split; [cbn; tauto | cbn; lia].
  - vm_compute. reflexivity.
Qed.

Lemma initialize_check_order_witness :
  in_now init_dup_then_bad + MAX_START_DELAY <= I64_MAX /\
  I64_MIN <= in_now init_dup_then_bad + MAX_START_DELAY /\
  snd (exec None (Initialize init_dup_then_bad))
  = match first_failure (ordered_checks (in_now init_dup_then_bad)
                           (in_beneficiaries init_dup_then_bad)
                           (in_amount init_dup_then_bad) (in_decimals init_dup_then_bad)) with
    | Some e => Err (VErr e)
    | None => if in_wallet_amount init_dup_then_bad >=? in_amount init_dup_then_bad
              then (if in_transfer_ok init_dup_then_bad then Ok tt else Err TokenTransferFailed)
              else Err (VErr InsufficientBalance)
    end.
Proof.
  assert (H1 : in_now init_dup_then_bad + MAX_START_DELAY <= I64_MAX)
    by (cbn; unfold T0A, MAX_START_DELAY, I64_MAX; lia).
  assert (H2 : I64_MIN <= in_now init_dup_then_bad + MAX_START_DELAY)
    by (cbn; unfold T0A, MAX_START_DELAY, I64_MIN; lia).
  split; [exact H1 | split; [exact H2|]].
  exact (initialize_check_order init_dup_then_bad H1 H2).
Defined.

(** The [withdraw] body leaves its sweep in the in-memory account when it
    then fails for lack of escrow balance; the runtime drops it. *)
Example withdraw_insufficient_in_memory :
  withdraw (sweepB 0) acctA = (acctA_swept, Err (VErr InsufficientBalance)) /\
  exec (Some acctA) (Withdraw (sweepB 0)) = (Some acctA, Err (VErr InsufficientBalance)).
Proof. split; vm_compute; reflexivity. Qed.

Lemma failed_instruction_no_effect_witness :
  snd (exec (Some acctA) (Withdraw (sweepB 0))) = Err (VErr InsufficientBalance) /\
  fst (exec (Some acctA) (Withdraw (sweepB 0))) = Some acctA.
Proof.
  assert (H : snd (exec (Some acctA) (Withdraw (sweepB 0))) = Err (VErr InsufficientBalance))
    by (vm_compute; reflexivity).
  split; [exact H|].
  exact (failed_instruction_no_effect (Some acctA) (Withdraw (sweepB 0)) _ H).
Defined.

Lemma full_vesting_unlocks_allocation_witness :
  vesting_progress (scenarioA_beneficiary 1 T0A) (T0A + 12 * M) = Ok (9, 9) /\
  9 = 9 /\ 9 = total_months (scenarioA_beneficiary 1 T0A)
              - cliff_months (scenarioA_beneficiary 1 T0A) /\
  claim_unlocked (scenarioA_beneficiary 1 T0A) (T0A + 12 * M) = Ok 1200000.
Proof.
  assert (H : vesting_progress (scenarioA_beneficiary 1 T0A) (T0A + 12 * M) = Ok (9, 9))
    by (vm_compute; reflexivity).
  split; [exact H|].
  exact (full_vesting_unlocks_allocation _ _ 9 9 H (Z.le_refl 9)).
Defined.

Lemma unlocked_no_math_overflow_witness :
  in_u64 1200000 /\ in_u8 3 /\ in_u8 12 /\
  claim_unlocked (scenarioA_beneficiary 1 T0A) (T0A + 5 * M) <> Err (VErr MathOverflow).
Proof.
  assert (Ha : in_u64 (allocated_tokens (scenarioA_beneficiary 1 T0A)))
    by (cbn; unfold in_u64, U64_MAX; lia).
  assert (Hc : in_u8 (cliff_months (scenarioA_beneficiary 1 T0A))) by (cbn; unfold in_u8; lia).
  assert (Ht : in_u8 (total_months (scenarioA_beneficiary 1 T0A))) by (cbn; unfold in_u8; lia).
  split; [exact Ha | split; [exact Hc | split; [exact Ht|]]].
  exact (proj2 (unlocked_no_math_overflow _ (T0A + 5 * M) Ha Hc Ht)).
Defined.

(** C9 as stated fails: after admin 7 hands the role to 20, admin 20 hands
    it on to 30. *)
Lemma change_admin_counterexample :
  snd (exec (Some acctA) (ChangeAdmin (mkChangeAdminCtx 7 20))) = Ok tt /\
  snd (exec (fst (exec (Some acctA) (ChangeAdmin (mkChangeAdminCtx 7 20))))
            (ChangeAdmin (mkChangeAdminCtx 20 30))) = Ok tt.
Proof. split; vm_compute; reflexivity. Qed.

Lemma change_admin_repeatable_witness :
  authority acctA = 7%N /\
  exec (Some acctA) (ChangeAdmin (mkChangeAdminCtx 7 20))
  = (Some (set_authority acctA 20), Ok tt) /\
  exec (Some (set_authority acctA 20)) (ChangeAdmin (mkChangeAdminCtx 20 30))
  = (Some (set_authority (set_authority acctA 20) 30), Ok tt).
Proof.
  split; [reflexivity|].
  apply (change_admin_repeatable acctA 7 20 30); try reflexivity; discriminate.
Defined.

Lemma withdraw_repeat_no_unclaimed_witness :
  exec (Some acctA) (Withdraw (sweepB 1200000)) = (Some acctA_swept, Ok tt) /\
  exec (Some acctA_swept) (Withdraw (sweepB 0))
  = (Some acctA_swept, Err (VErr NoUnclaimedTokens)).
Proof.
  assert (H : exec (Some acctA) (Withdraw (sweepB 1200000)) = (Some acctA_swept, Ok tt))
    by (vm_compute; reflexivity).
  split; [exact H|].
  apply (withdraw_repeat_no_unclaimed acctA acctA_swept (sweepB 1200000) (sweepB 0) H);
    reflexivity.
Defined.

(** ** Further properties of the instructions *)

Lemma bind_ok {A B} (m : Instr A) (k : A -> Instr B) (s s' : DataAccount) (b : B) :
  bind m k s = (s', Ok b) -> exists a s1, m s = (s1, Ok a) /\ k a s1 = (s', Ok b).
Proof. unfold bind. destruct (m s) as [s1 [a|e]]; [eauto | discriminate]. Qed.

Lemma lift_ok {A} (r : result A) (s s' : DataAccount) (a : A) :
  lift r s = (s', Ok a) -> r = Ok a /\ s' = s.
Proof. unfold lift. intros H; inversion H; auto. Qed.

Lemma validate_beneficiaries_ok (now : Z) (bs : list Beneficiary) :
  forall seen, validate_beneficiaries now seen bs = Ok tt ->
  Forall (beneficiary_valid now) bs /\ NoDup (map key bs) /\
  Forall (fun b => key b ∉ seen) bs.
Proof.
  induction bs as [|b rest IH]; intros seen H.
  - split; [constructor | split; constructor].
  - cbn [validate_beneficiaries] in H. unfold require, add_i64 in H.
    destruct (Z.geb_spec (total_months b) 1); cbn [res_bind] in H; [|discriminate].
    destruct (Z.leb_spec (cliff_months b) 48); cbn [res_bind] in H; [|discriminate].
    destruct (Z.ltb_spec (cliff_months b) (total_months b)); cbn [res_bind] in H; [|discriminate].
    destruct (Z.gtb_spec (allocated_tokens b) 0); cbn [res_bind] in H; [|discriminate].
    destruct (Z.geb_spec (start_time b) now); cbn [res_bind] in H; [|discriminate].
    destruct ((I64_MIN <=? now + MAX_START_DELAY) && (now + MAX_START_DELAY <=? I64_MAX));
      cbn [res_bind] in H; [|discriminate].
    destruct (Z.leb_spec (start_time b) (now + MAX_START_DELAY)); cbn [res_bind] in H;
      [|discriminate].
    destruct (Z.gtb_spec (cliff_months b) 0) as [Hc | Hc].
    + destruct (Z.eqb_spec (Z.rem (total_months b) (cliff_months b)) 0) as [Hr|];
        cbn [res_bind] in H; [|discriminate].
      destruct (bool_decide (key b ∈ seen)) eqn:Ek; cbn [negb res_bind] in H; [discriminate|].
      apply bool_decide_eq_false in Ek. apply IH in H as (Hv & Hnd & Hfresh).
      split; [constructor; [unfold beneficiary_valid; repeat split; auto; lia | exact Hv]|].
      split.
      * cbn [map]. apply NoDup_cons. split; [|exact Hnd].
        intros Hin. apply list_elem_of_In, in_map_iff in Hin as (b' & Hk & Hb'). apply list_elem_of_In in Hb'.
        eapply Forall_forall in Hfresh; [|exact Hb']. rewrite <- Hk in Hfresh. set_solver.
      * constructor; [exact Ek|]. eapply Forall_impl; [exact Hfresh|]. cbn. set_solver.
    + cbn [res_bind] in H.
      destruct (bool_decide (key b ∈ seen)) eqn:Ek; cbn [negb res_bind] in H; [discriminate|].
      apply bool_decide_eq_false in Ek. apply IH in H as (Hv & Hnd & Hfresh).
      split; [constructor; [unfold beneficiary_valid; repeat split; auto; lia | exact Hv]|].
      split.
      * cbn [map]. apply NoDup_cons. split; [|exact Hnd].
        intros Hin. apply list_elem_of_In, in_map_iff in Hin as (b' & Hk & Hb'). apply list_elem_of_In in Hb'.
        eapply Forall_forall in Hfresh; [|exact Hb']. rewrite <- Hk in Hfresh. set_solver.
      * constructor; [exact Ek|]. eapply Forall_impl; [exact Hfresh|]. cbn. set_solver.
Qed.

Lemma sum_allocations_ok (acc : Z) (bs : list Beneficiary) (t : Z) :
  sum_allocations acc bs = Ok t -> t = acc + total_allocation bs.
Proof.
  revert acc. induction bs as [|b rest IH]; intros acc H; cbn [sum_allocations] in H.
  - inversion H. cbn. lia.
  - unfold checked_add_u64 in H.
    destruct (acc + allocated_tokens b <=? U64_MAX); cbn [ok_or res_bind] in H; [|discriminate].
    apply IH in H. subst. cbn. unfold total_allocation. lia.
Qed.

(** X1.  A successful [initialize] (on the fresh account) stores exactly
    the configuration it was given, with the caller as authority; the
    stored schedule has 1 to 50 entries with pairwise distinct keys, each
    entry passes the field checks, the allocations sum to at most [amount],
    [amount] is positive and covered by the funding wallet, and
    [decimals <= 9]. *)
Theorem initialize_success_config (c : InitCtx) (da : DataAccount)
    (H : exec None (Initialize c) = (Some da, Ok tt)) :
  da = mkDataAccount (in_amount c) (in_sender c) (in_escrow_key c) (in_mint_key c)
         (in_beneficiaries c) (in_decimals c) /\
  (1 <= length (in_beneficiaries c))%nat /\ (length (in_beneficiaries c) <= 50)%nat /\
  0 < in_amount c <= in_wallet_amount c /\ in_decimals c <= MAX_DECIMALS /\
  Forall (beneficiary_valid (in_now c)) (in_beneficiaries c) /\
  NoDup (map key (in_beneficiaries c)) /\
  total_allocation (in_beneficiaries c) <= in_amount c.
Proof.
  unfold exec in H.
  destruct (initialize c default_data_account) as [s' [[]|e]] eqn:Ei; inversion H; subst; clear H.
  unfold initialize in Ei.
  apply bind_ok in Ei as (da0 & s1 & Hget & Ei). inversion Hget; subst; clear Hget.
  cbn [authority default_data_account] in Ei.
  change (N.eqb default_pubkey default_pubkey) with true in Ei. cbv iota in Ei.
  apply bind_ok in Ei as (u0 & s2 & Hput & Ei). inversion Hput; subst; clear Hput.
  apply bind_ok in Ei as (u1 & s3 & Hl & Ei). apply lift_ok in Hl as [Hne ->].
  apply bind_ok in Ei as (u2 & s4 & Hl & Ei). apply lift_ok in Hl as [Hlen ->].
  apply bind_ok in Ei as (u3 & s5 & Hl & Ei). apply lift_ok in Hl as [Hamt ->].
  apply bind_ok in Ei as (u4 & s6 & Hl & Ei). apply lift_ok in Hl as [Hdec ->].
  apply bind_ok in Ei as (u5 & s7 & Hl & Ei). apply lift_ok in Hl as [Hval ->].
  apply bind_ok in Ei as (tot & s8 & Hl & Ei). apply lift_ok in Hl as [Hsum ->].
  apply bind_ok in Ei as (u6 & s9 & Hl & Ei). apply lift_ok in Hl as [Hover ->].
  apply bind_ok in Ei as (u7 & s10 & Hm & Ei). inversion Hm; subst; clear Hm.
  apply bind_ok in Ei as (u8 & s11 & Hl & Ei). apply lift_ok in Hl as [Hbal ->].
  unfold token_transfer in Ei. apply lift_ok in Ei as [_ ->].
  apply require_ok in Hne, Hlen, Hamt, Hdec, Hover, Hbal.
  destruct u5. apply validate_beneficiaries_ok in Hval as (Hv & Hnd & _).
  apply sum_allocations_ok in Hsum.
  apply negb_true_iff, bool_decide_eq_false in Hne.
  apply Nat.leb_le in Hlen. apply Z.gtb_lt in Hamt. apply Z.leb_le in Hdec.
  apply Z.leb_le in Hover. apply Z.geb_le in Hbal.
  split; [reflexivity|].
  split; [destruct (in_beneficiaries c); [congruence | cbn; lia]|]. split; [exact Hlen|].
  split; [lia|]. split; [exact Hdec|]. split; [exact Hv|]. split; [exact Hnd|]. lia.
Qed.

Lemma validate_beneficiaries_same_terms (now : Z) (bs bs' : list Beneficiary) :
  Forall2 same_terms bs bs' ->
  forall seen, validate_beneficiaries now seen bs' = validate_beneficiaries now seen bs.
Proof.
  induction 1 as [|b b' rest rest' Hb _ IH]; intros seen; [reflexivity|].
  destruct Hb as (Hk & Ha & Hs & Hc & Ht).
  cbn [validate_beneficiaries]. rewrite Hk, Ha, Hs, Hc, Ht, IH. reflexivity.
Qed.

Lemma sum_allocations_same_terms (bs bs' : list Beneficiary) :
  Forall2 same_terms bs bs' ->
  forall acc, sum_allocations acc bs' = sum_allocations acc bs.
Proof.
  induction 1 as [|b b' rest rest' Hb _ IH]; intros acc; [reflexivity|].
  destruct Hb as (_ & Ha & _). cbn [sum_allocations]. rewrite Ha.
  destruct (ok_or _ _); cbn [res_bind]; auto.
Qed.

(** X2.  [initialize] never reads [claimed_tokens]: replacing the
    supplied entries by entries with the same terms and any
    [claimed_tokens] gives the same outcome, and on success the account
    stores the supplied values as they are (nonzero, or even above the
    allocation). *)
Theorem initialize_ignores_claimed (c : InitCtx) (bs' : list Beneficiary)
    (H : Forall2 same_terms (in_beneficiaries c) bs') :
  exec None (Initialize (with_beneficiaries c bs'))
  = match exec None (Initialize c) with
    | (Some da, r) => (Some (set_beneficiaries da bs'), r)
    | (None, r) => (None, r)
    end.
Proof.
  assert (Hlen : length bs' = length (in_beneficiaries c))
    by (symmetry; eapply Forall2_length; eauto).
  assert (Hnil : bool_decide (bs' = []) = bool_decide (in_beneficiaries c = []))
    by (rewrite !bool_decide_nil, Hlen; reflexivity).
  unfold exec, initialize, bind, lift, get, put, modify, require, token_transfer.
  cbn [authority default_data_account set_authority in_beneficiaries with_beneficiaries
       in_sender in_amount in_decimals in_now in_escrow_key in_mint_key in_wallet_amount
       in_transfer_ok].
  change (N.eqb default_pubkey default_pubkey) with true. cbv beta iota.
  rewrite Hnil, Hlen, (validate_beneficiaries_same_terms _ _ _ H),
    (sum_allocations_same_terms _ _ H).
  destruct (negb (bool_decide (in_beneficiaries c = []))); [|reflexivity].
  destruct (Nat.leb (length (in_beneficiaries c)) MAX_BENEFICIARIES); [|reflexivity].
  destruct (in_amount c >? 0); [|reflexivity].
  destruct (in_decimals c <=? MAX_DECIMALS); [|reflexivity].
  destruct (validate_beneficiaries (in_now c) ∅ (in_beneficiaries c)) as [[]|e];
    [|reflexivity].
  destruct (sum_allocations 0 (in_beneficiaries c)) as [tot|e]; [|reflexivity].
  destruct (tot <=? in_amount c); [|reflexivity].
  destruct (in_wallet_amount c >=? in_amount c); [|reflexivity].
  destruct (in_transfer_ok c); reflexivity.
Qed.

Lemma validate_beneficiaries_not_unauthorized (now : Z) (bs : list Beneficiary) :
  forall seen, validate_beneficiaries now seen bs <> Err (VErr UnauthorizedAdmin).
Proof.
  induction bs as [|b rest IH]; intros seen; cbn [validate_beneficiaries]; [discriminate|].
  unfold require, add_i64.
  repeat match goal with
  | |- context [if ?c then _ else _] => destruct c; cbn [res_bind]; try discriminate
  end; apply IH.
Qed.

Lemma sum_allocations_err (acc : Z) (bs : list Beneficiary) (e : Error) :
  sum_allocations acc bs = Err e -> e = VErr MathOverflow.
Proof.
  revert acc. induction bs as [|b rest IH]; intros acc H; cbn [sum_allocations] in H;
    [discriminate|].
  destruct (ok_or _ _) eqn:Eo; cbn [res_bind] in H; [eapply IH; eauto|].
  unfold ok_or in Eo. destruct (checked_add_u64 _ _); [discriminate|].
  inversion Eo; subst. inversion H. reflexivity.
Qed.

(** X3.  [initialize] never fails with [UnauthorizedAdmin]: on an
    existing account Anchor's [init] stops it first, and on a fresh one the
    authority is the default key, so the authority comparison is never
    reached. *)
Theorem initialize_never_unauthorized (l : Ledger) (c : InitCtx) :
  snd (exec l (Initialize c)) <> Err (VErr UnauthorizedAdmin).
Proof.
  destruct l as [s|]; cbn [exec]; [discriminate|].
  unfold initialize, bind, lift, get, put, modify, require, token_transfer.
  cbn [authority default_data_account set_authority].
  change (N.eqb default_pubkey default_pubkey) with true. cbv beta iota.
  destruct (negb (bool_decide (in_beneficiaries c = []))); [|discriminate].
  destruct (Nat.leb (length (in_beneficiaries c)) MAX_BENEFICIARIES); [|discriminate].
  destruct (in_amount c >? 0); [|discriminate].
  destruct (in_decimals c <=? MAX_DECIMALS); [|discriminate].
  destruct (validate_beneficiaries (in_now c) ∅ (in_beneficiaries c)) as [[]|e] eqn:Ev;
    [| cbn; intros He; inversion He; subst;
       eapply validate_beneficiaries_not_unauthorized; eauto].
  destruct (sum_allocations 0 (in_beneficiaries c)) as [tot|e] eqn:Es;
    [| apply sum_allocations_err in Es; subst; discriminate].
  destruct (tot <=? in_amount c); [|discriminate].
  destruct (in_wallet_amount c >=? in_amount c); [|discriminate].
  destruct (in_transfer_ok c); discriminate.
Qed.

Lemma exec_ok_claim (da da' : DataAccount) (c : ClaimCtx) :
  exec (Some da) (Claim c) = (Some da', Ok tt) -> claim c da = (da', Ok tt).
Proof.
  unfold exec, commit. destruct (claim c da) as [s' [[]|e]]; intros H; inversion H; auto.
Qed.

(** A successful [claim] body also had [claimable] covered by the escrow. *)
Lemma claim_ok_escrow (c : ClaimCtx) (da s' : DataAccount) (u : unit) :
  claim c da = (s', Ok u) ->
  exists index b claimable,
    list_find (fun b' => key b' = cl_sender c) (beneficiaries da) = Some (index, b) /\
    claim_calc b (cl_now c) = Ok claimable /\ claimable <= cl_escrow_amount c /\
    s' = store_claimed index (claimed_tokens b + claimable) da.
Proof.
  unfold claim, bind, lift, get, modify, require, token_transfer.
  destruct (cl_escrow_key_ok c); [|discriminate].
  destruct (cl_escrow_bump_ok c); [|discriminate].
  destruct (list_find _ (beneficiaries da)) as [[index b]|] eqn:Ef; [|discriminate].
  destruct (claim_calc b (cl_now c)) as [claimable|e] eqn:Ec; [|discriminate].
  unfold u64_try_from, checked_add_u64.
  destruct (claimable <=? U64_MAX); cbn [ok_or]; [|discriminate].
  destruct (Z.geb_spec (cl_escrow_amount c) claimable) as [Hge|Hlt]; [|discriminate].
  destruct (claimed_tokens b + claimable <=? U64_MAX); cbn [ok_or]; [|discriminate].
  destruct (cl_transfer_ok c); [|discriminate].
  intros Hs; inversion Hs; subst. exists index, b, claimable. repeat split; auto; lia.
Qed.

Lemma claim_calc_unlocked (b : Beneficiary) (now claimable : Z) :
  claim_calc b now = Ok claimable ->
  exists u, claim_unlocked b now = Ok u /\ claimable = u - claimed_tokens b /\
    claimed_tokens b < u.
Proof.
  unfold claim_calc. destruct (claim_unlocked b now) as [u|e]; cbn [res_bind]; [|discriminate].
  unfold require, saturating_sub_unsigned.
  destruct (Z.gtb_spec (Z.max 0 (u - claimed_tokens b)) 0) as [Hpos|Hpos]; cbn [res_bind]; [|discriminate].
  intros Hs; inversion Hs; subst. exists u. repeat split; lia.
Qed.

(** X4.  With the escrow checks passed, a caller whose key is not in the
    list gets [BeneficiaryNotFound] and the account is unchanged. *)
Theorem claim_unknown_sender (da : DataAccount) (c : ClaimCtx)
    (Hkey : cl_escrow_key_ok c = true) (Hbump : cl_escrow_bump_ok c = true)
    (Hnone : Forall (fun b => key b <> cl_sender c) (beneficiaries da)) :
  exec (Some da) (Claim c) = (Some da, Err (VErr BeneficiaryNotFound)).
Proof.
  unfold exec, commit, claim. rewrite Hkey, Hbump.
  cbn [bind lift require get].
  rewrite (proj2 (list_find_None _ _) Hnone). reflexivity.
Qed.

(** X5.  A successful [claim] raises the [claimed_tokens] of the caller's
    first entry from [claimed] to exactly [unlocked] (a positive amount the
    escrow covers), leaves every other entry and every other field of the
    account unchanged. *)
Theorem claim_success_effect (da da' : DataAccount) (c : ClaimCtx)
    (H : exec (Some da) (Claim c) = (Some da', Ok tt)) :
  exists index b u,
    list_find (fun b' => key b' = cl_sender c) (beneficiaries da) = Some (index, b) /\
    claim_unlocked b (cl_now c) = Ok u /\ claimed_tokens b < u /\
    u - claimed_tokens b <= cl_escrow_amount c /\
    beneficiaries da' !! index = Some (set_claimed_tokens b u) /\
    (forall j, j <> index -> beneficiaries da' !! j = beneficiaries da !! j) /\
    da' = set_beneficiaries da (beneficiaries da').
Proof.
  apply exec_ok_claim, claim_ok_escrow in H as (index & b & claimable & Hf & Hc & Hesc & ->).
  apply claim_calc_unlocked in Hc as (u & Hu & -> & Hlt).
  pose proof Hf as Hf'. apply list_find_Some in Hf' as (Hb & _ & _).
  exists index, b, u. split; [exact Hf|]. split; [exact Hu|]. split; [exact Hlt|].
  split; [exact Hesc|].
  replace (claimed_tokens b + (u - claimed_tokens b)) with u by lia.
  split; [rewrite (store_claimed_lookup _ _ _ _ _ Hb); rewrite decide_True by reflexivity;
          reflexivity|].
  split; [intros j Hj; rewrite (store_claimed_lookup _ _ _ _ _ Hb);
          rewrite decide_False by exact Hj; reflexivity|].
  unfold store_claimed. rewrite Hb. reflexivity.
Qed.

Lemma list_find_insert_found (P : Beneficiary -> Prop) `{forall x, Decision (P x)}
    (l : list Beneficiary) (i : nat) (x y : Beneficiary) :
  list_find P l = Some (i, x) -> P y -> list_find P (<[i := y]> l) = Some (i, y).
Proof.
  intros Hf Hy. apply list_find_Some in Hf as (Hx & _ & Hbefore).
  apply list_find_Some. split; [|split; [exact Hy|]].
  - apply list_lookup_insert_eq. eapply lookup_lt_Some; eauto.
  - intros j z Hz Hj. rewrite list_lookup_insert_ne in Hz by lia. eauto.
Qed.

(** X6.  Right after a successful [claim], a second claim by the same
    caller at the same instant fails with [ClaimNotAllowed] and changes
    nothing, whatever the escrow balance. *)
Theorem claim_repeat_same_instant (da da' : DataAccount) (c c' : ClaimCtx)
    (H : exec (Some da) (Claim c) = (Some da', Ok tt))
    (Hsender : cl_sender c' = cl_sender c) (Hnow : cl_now c' = cl_now c)
    (Hkey : cl_escrow_key_ok c' = true) (Hbump : cl_escrow_bump_ok c' = true) :
  exec (Some da') (Claim c') = (Some da', Err (VErr ClaimNotAllowed)).
Proof.
  apply exec_ok_claim, claim_ok_escrow in H as (index & b & claimable & Hf & Hc & _ & ->).
  apply claim_calc_unlocked in Hc as (u & Hu & -> & Hlt).
  replace (claimed_tokens b + (u - claimed_tokens b)) with u by lia.
  pose proof Hf as Hf'. apply list_find_Some in Hf' as (Hb & Hkb & _).
  apply (exec_claim_calc_err _ _ index (set_claimed_tokens b u)); [exact Hkey | exact Hbump | |].
  - unfold store_claimed. rewrite Hb. cbn [beneficiaries set_beneficiaries].
    rewrite Hsender. apply (list_find_insert_found _ _ _ b); [exact Hf | exact Hkb].
  - rewrite Hnow. unfold claim_calc.
    change (claim_unlocked (set_claimed_tokens b u) (cl_now c))
      with (claim_unlocked b (cl_now c)).
    rewrite Hu. cbn [res_bind claimed_tokens set_claimed_tokens].
    unfold saturating_sub_unsigned. rewrite Z.sub_diag. reflexivity.
Qed.

(** [months_elapsed] in closed form. *)
Lemma months_elapsed_formula (b : Beneficiary) (now : Z) :
  months_elapsed_of b now
  = Ok (if now >=? start_time b
        then Z.min I64_MAX (now - start_time b) / SECONDS_PER_MONTH else 0).
Proof.
  unfold months_elapsed_of.
  destruct (Z.geb_spec now (start_time b)) as [Hge|Hlt]; [|reflexivity].
  unfold saturating_sub_i64, checked_div_i64.
  replace (Z.max I64_MIN (Z.min I64_MAX (now - start_time b)))
    with (Z.min I64_MAX (now - start_time b)) by (unfold I64_MIN, I64_MAX; lia).
  change (SECONDS_PER_MONTH =? 0) with false. change (SECONDS_PER_MONTH =? -1) with false.
  rewrite andb_false_r. cbn [orb ok_or res_bind].
  rewrite Z.quot_div_nonneg by (unfold I64_MAX, SECONDS_PER_MONTH; lia).
  unfold i64_as_u64. f_equal. apply Z.mod_small. split.
  - apply Z.div_pos; unfold I64_MAX, SECONDS_PER_MONTH; lia.
  - assert (Z.min I64_MAX (now - start_time b) / SECONDS_PER_MONTH
            <= Z.min I64_MAX (now - start_time b))
      by (apply Z.div_le_upper_bound; unfold I64_MAX, SECONDS_PER_MONTH in *; lia).
    unfold I64_MAX in *. lia.
Qed.

Lemma months_elapsed_monotone (b : Beneficiary) (now1 now2 : Z) :
  now1 <= now2 ->
  (if now1 >=? start_time b then Z.min I64_MAX (now1 - start_time b) / SECONDS_PER_MONTH else 0)
  <= (if now2 >=? start_time b then Z.min I64_MAX (now2 - start_time b) / SECONDS_PER_MONTH else 0).
Proof.
  intros Hn.
  destruct (Z.geb_spec now1 (start_time b)); destruct (Z.geb_spec now2 (start_time b)); try lia.
  - apply Z.div_le_mono; [unfold SECONDS_PER_MONTH; lia | lia].
  - apply Z.div_pos; unfold I64_MAX, SECONDS_PER_MONTH; lia.
Qed.

(** A later instant keeps the vesting progress: no new error, and at least
    as many months vested. *)
Lemma vesting_progress_later (b : Beneficiary) (now1 now2 mv1 vm : Z) :
  now1 <= now2 -> vesting_progress b now1 = Ok (mv1, vm) ->
  exists mv2, vesting_progress b now2 = Ok (mv2, vm) /\ mv1 <= mv2 <= vm.
Proof.
  intros Hn H. pose proof (vesting_progress_ok _ _ _ _ H) as (_ & _ & Hmv1).
  unfold vesting_progress in *.
  destruct (sub_u64 (total_months b) (cliff_months b)) as [vm0|e]; cbn [res_bind] in *;
    [|discriminate].
  destruct (require (vm0 >? 0) InvalidVestingConfig); cbn [res_bind] in *; [|discriminate].
  rewrite months_elapsed_formula in *. cbn [res_bind] in *.
  pose proof (months_elapsed_monotone b now1 now2 Hn) as Hm.
  set (me1 := if now1 >=? start_time b then _ else 0) in *.
  set (me2 := if now2 >=? start_time b then _ else 0) in *.
  destruct (Z.ltb_spec me1 (cliff_months b)); [discriminate|].
  destruct (Z.ltb_spec me2 (cliff_months b)); [lia|].
  rewrite !sub_u64_le in * by lia. cbn [res_bind] in *.
  inversion H; subst. eexists. split; [reflexivity | lia].
Qed.

Lemma unlocked_of_monotone (a mv1 mv2 vm u1 u2 : Z) :
  0 <= a -> 0 <= mv1 <= mv2 -> 0 < vm ->
  unlocked_of a mv1 vm = Ok u1 -> unlocked_of a mv2 vm = Ok u2 -> u1 <= u2.
Proof.
  intros Ha Hmv Hvm. unfold unlocked_of, checked_mul_u128, checked_div_u128.
  destruct (Z.geb_spec mv1 vm); destruct (Z.geb_spec mv2 vm); try lia.
  - intros H1 H2. inversion H1; inversion H2. lia.
  - destruct (a * mv1 <=? U128_MAX); cbn [ok_or res_bind]; [|discriminate].
    destruct (vm =? 0); cbn [ok_or]; [discriminate|].
    intros H1 H2; inversion H1; inversion H2; subst.
    apply Z.div_le_upper_bound; nia.
  - destruct (a * mv1 <=? U128_MAX); cbn [ok_or res_bind]; [|discriminate].
    destruct (a * mv2 <=? U128_MAX); cbn [ok_or res_bind]; [|discriminate].
    destruct (vm =? 0); cbn [ok_or]; [discriminate|].
    intros H1 H2; inversion H1; inversion H2; subst.
    apply Z.div_le_mono; nia.
Qed.

(** X7.  For u64 allocations and u8 month counts, once [unlocked] can be
    computed at some instant it can be computed at every later instant, it
    never decreases, and it never exceeds [allocated_tokens]. *)
Theorem claim_unlocked_monotone (b : Beneficiary) (now1 now2 u1 : Z)
    (Ha : in_u64 (allocated_tokens b)) (Hc : in_u8 (cliff_months b))
    (Ht : in_u8 (total_months b)) (Hn : now1 <= now2)
    (H1 : claim_unlocked b now1 = Ok u1) :
  exists u2, claim_unlocked b now2 = Ok u2 /\ u1 <= u2 <= allocated_tokens b.
Proof.
  unfold claim_unlocked in *.
  destruct (vesting_progress b now1) as [[mv1 vm]|e] eqn:Ep1; cbn [res_bind fst snd] in H1;
    [|discriminate].
  destruct (vesting_progress_later b now1 now2 mv1 vm Hn Ep1) as (mv2 & Ep2 & Hmv).
  pose proof (vesting_progress_ok _ _ _ _ Ep1) as (Hvm & Hpos & Hmv1).
  rewrite Ep2. cbn [res_bind fst snd].
  unfold in_u8, in_u64 in *.
  destruct (unlocked_of_ok (allocated_tokens b) mv2 vm) as (u2 & Hu2 & Hle);
    [unfold in_u64; lia | lia | lia|].
  exists u2. split; [exact Hu2|]. split; [|lia].
  apply (unlocked_of_monotone (allocated_tokens b) mv1 mv2 vm); auto; lia.
Qed.

(** X8.  A caller whose entry already has [claimed_tokens >=
    allocated_tokens] (for instance after a [withdraw] swept it) can never
    claim again: every [claim] fails and leaves the account unchanged. *)
Theorem claim_fully_claimed_fails (da : DataAccount) (c : ClaimCtx) (index : nat)
    (b : Beneficiary)
    (Hfind : list_find (fun b' => key b' = cl_sender c) (beneficiaries da) = Some (index, b))
    (Ha : 0 <= allocated_tokens b) (Hfull : allocated_tokens b <= claimed_tokens b) :
  exists e, exec (Some da) (Claim c) = (Some da, Err e).
Proof.
  destruct (claim c da) as [s' [[]|e]] eqn:Ec.
  - exfalso. apply claim_ok in Ec as (index' & b' & cl & Hf & Hc & _).
    rewrite Hfind in Hf. inversion Hf; subst.
    apply claim_calc_ok in Hc; [lia | exact Ha].
  - exists e. unfold exec, commit. rewrite Ec. reflexivity.
Qed.

Lemma claim_unlocked_not_overflow (b : Beneficiary) (now : Z) :
  in_u64 (allocated_tokens b) -> in_u8 (cliff_months b) -> in_u8 (total_months b) ->
  claim_unlocked b now <> Err (VErr MathOverflow).
Proof.
  intros Ha Hc Ht. unfold in_u8, in_u64 in *. unfold claim_unlocked.
  destruct (vesting_progress b now) as [[mv vm] | e] eqn:Ep; cbn [res_bind fst snd].
  - apply vesting_progress_ok in Ep as (Hvm & Hpos & Hmv).
    destruct (unlocked_of_ok (allocated_tokens b) mv vm) as [u [-> _]];
      [unfold in_u64; lia | lia | lia | discriminate].
  - intros He. inversion He; subst.
    destruct (vesting_progress_errors _ _ _ Ep) as [? | [? | ?]]; discriminate.
Qed.

Lemma claim_calc_err (b : Beneficiary) (now : Z) (e : Error) :
  claim_calc b now = Err e -> claim_unlocked b now = Err e \/ e = VErr ClaimNotAllowed.
Proof.
  unfold claim_calc. destruct (claim_unlocked b now) as [u|e']; cbn [res_bind].
  - unfold require. destruct (_ >? 0); cbn [res_bind]; [discriminate|].
    intros H; inversion H; auto.
  - intros H; inversion H; auto.
Qed.

(** X9.  When every entry has u64 amounts and u8 month counts, [claim]
    never fails with [MathOverflow]. *)
Theorem claim_no_math_overflow (da : DataAccount) (c : ClaimCtx)
    (Hbounds : Forall (fun b => in_u64 (allocated_tokens b) /\ in_u64 (claimed_tokens b) /\
                                in_u8 (cliff_months b) /\ in_u8 (total_months b))
                      (beneficiaries da)) :
  snd (exec (Some da) (Claim c)) <> Err (VErr MathOverflow).
Proof.
  unfold exec, commit, claim, bind, lift, get, modify, require, token_transfer.
  destruct (cl_escrow_key_ok c); [|discriminate].
  destruct (cl_escrow_bump_ok c); [|discriminate].
  destruct (list_find _ (beneficiaries da)) as [[index b]|] eqn:Ef; [|discriminate].
  apply list_find_Some in Ef as (Hb & _ & _).
  pose proof (Forall_lookup_1 _ _ _ _ Hbounds Hb) as (Ha & Hcl & Hc & Ht).
  destruct (claim_calc b (cl_now c)) as [cl|e] eqn:Ec.
  - assert (Ha0 : 0 <= allocated_tokens b) by (unfold in_u64 in Ha; lia).
    pose proof (claim_calc_ok _ _ _ Ha0 Ec) as [Hpos Hle].
    unfold in_u64, U64_MAX in *.
    unfold u64_try_from, checked_add_u64.
    destruct (Z.leb_spec cl U64_MAX); cbn [ok_or]; [|unfold U64_MAX in *; lia].
    destruct (cl_escrow_amount c >=? cl); [|discriminate].
    destruct (Z.leb_spec (claimed_tokens b + cl) U64_MAX); cbn [ok_or];
      [|unfold U64_MAX in *; lia].
    destruct (cl_transfer_ok c); discriminate.
  - cbn. intros He. inversion He; subst.
    destruct (claim_calc_err _ _ _ Ec) as [Hu | Hna]; [|discriminate].
    exact (claim_unlocked_not_overflow b (cl_now c) Ha Hc Ht Hu).
Qed.

(** X10.  With the escrow checks passed, a [withdraw] by anyone other
    than the stored authority fails with [UnauthorizedAdmin] and changes
    nothing. *)
Theorem withdraw_unauthorized (da : DataAccount) (c : WithdrawCtx)
    (Hkey : wd_escrow_key_ok c = true) (Hbump : wd_escrow_bump_ok c = true)
    (Hadmin : authority da <> wd_admin c) :
  exec (Some da) (Withdraw c) = (Some da, Err (VErr UnauthorizedAdmin)).
Proof.
  unfold exec, commit, withdraw, bind, lift, get, require. rewrite Hkey, Hbump.
  destruct (N.eqb_spec (authority da) (wd_admin c)); [contradiction | reflexivity].
Qed.

Lemma earliest_withdraw_time_bounded (b : Beneficiary) :
  I64_MIN <= start_time b -> 0 <= cliff_months b <= total_months b ->
  total_months b <= 255 ->
  start_time b + total_months b * SECONDS_PER_MONTH + GRACE_PERIOD <= I64_MAX ->
  earliest_withdraw_time b
  = Ok (start_time b + total_months b * SECONDS_PER_MONTH + GRACE_PERIOD).
Proof.
  intros Hs Hc Ht Hmax.
  assert (cliff_months b * SECONDS_PER_MONTH <= total_months b * SECONDS_PER_MONTH)
    by (apply Z.mul_le_mono_nonneg_r; unfold SECONDS_PER_MONTH; lia).
  unfold earliest_withdraw_time, mul_i64, add_i64.
  unfold I64_MIN, I64_MAX, GRACE_PERIOD, SECONDS_PER_MONTH in *.
  repeat match goal with
  | |- context [if (?a <=? ?b) && (?c <=? ?d) then _ else _] =>
      destruct (Z.leb_spec a b); destruct (Z.leb_spec c d); cbn [andb res_bind]; try lia
  end.
  f_equal. lia.
Qed.

(** The loop passes over entries whose grace period has not ended. *)
Lemma withdraw_loop_nothing_due (now : Z) (bs : list Beneficiary) (tot p : Z) :
  Forall (fun b => exists t, earliest_withdraw_time b = Ok t /\ now <= t) bs ->
  withdraw_loop now bs tot p = (bs, Ok (tot, p)).
Proof.
  induction 1 as [|b rest (t & Et & Hle) _ IH]; [reflexivity|].
  cbn [withdraw_loop]. rewrite Et.
  destruct (Z.gtb_spec now t); [lia|]. cbn [andb]. rewrite IH. reflexivity.
Qed.

(** X11.  When no entry's grace period has ended yet ([now <= start_time
    + total_months * M + 6 * M], with [cliff_months <= total_months] and
    i64-range times), the admin's [withdraw] fails with [NoUnclaimedTokens]
    and changes nothing. *)
Theorem withdraw_before_grace (da : DataAccount) (c : WithdrawCtx)
    (Hkey : wd_escrow_key_ok c = true) (Hbump : wd_escrow_bump_ok c = true)
    (Hadmin : authority da = wd_admin c)
    (Hdue : Forall (fun b => I64_MIN <= start_time b /\
                             0 <= cliff_months b <= total_months b /\ total_months b <= 255 /\
                             wd_now c <= start_time b + total_months b * SECONDS_PER_MONTH
                                         + GRACE_PERIOD <= I64_MAX)
                   (beneficiaries da)) :
  exec (Some da) (Withdraw c) = (Some da, Err (VErr NoUnclaimedTokens)).
Proof.
  assert (Hloop : withdraw_loop (wd_now c) (beneficiaries da) 0 0
                  = (beneficiaries da, Ok (0, 0))).
  { apply withdraw_loop_nothing_due. eapply Forall_impl; [exact Hdue|].
    intros b (Hs & Hc & Ht & Hn & Hm).
    exists (start_time b + total_months b * SECONDS_PER_MONTH + GRACE_PERIOD).
    split; [apply earliest_withdraw_time_bounded; auto | lia]. }
  unfold exec, commit, withdraw, bind, lift, get, put, require. rewrite Hkey, Hbump.
  rewrite Hadmin, N.eqb_refl, Hloop. reflexivity.
Qed.

Lemma withdraw_loop_accounting (now : Z) (bs bs' : list Beneficiary) (t p t' p' : Z) :
  withdraw_loop now bs t p = (bs', Ok (t', p')) ->
  t' = t + (sum_claimed bs' - sum_claimed bs) /\ p' = p + count_changed bs bs'.
Proof.
  revert bs' t p. induction bs as [|b rest IH]; intros bs' t p H; cbn [withdraw_loop] in H.
  - inversion H; subst. cbn. lia.
  - destruct (earliest_withdraw_time b) as [e|e]; [|discriminate].
    destruct ((now >? e) && (saturating_sub_unsigned (allocated_tokens b)
                               (claimed_tokens b) >? 0)) eqn:Esw.
    + apply andb_true_iff in Esw as [_ Hpos]. apply Z.gtb_lt in Hpos.
      unfold saturating_sub_unsigned in *.
      unfold checked_add_u64 in H.
      destruct (t + Z.max 0 (allocated_tokens b - claimed_tokens b) <=? U64_MAX);
        [|discriminate].
      unfold checked_add_u32 in H. destruct (p + 1 <=? U32_MAX); [|discriminate].
      destruct (withdraw_loop now rest _ _) as [rest' r] eqn:Er.
      inversion H; subst. apply IH in Er as [-> ->].
      cbn [sum_claimed count_changed map fold_right claimed_tokens set_claimed_tokens].
      unfold sum_claimed.
      destruct (Z.eqb_spec (claimed_tokens b) (allocated_tokens b)); lia.
    + destruct (withdraw_loop now rest t p) as [rest' r] eqn:Er.
      inversion H; subst. apply IH in Er as [-> ->].
      cbn [sum_claimed count_changed map fold_right]. unfold sum_claimed.
      rewrite Z.eqb_refl. lia.
Qed.

(** A successful [withdraw] body also had its total covered by the escrow. *)
Lemma withdraw_ok_escrow (c : WithdrawCtx) (da s' : DataAccount) (u : unit) :
  withdraw c da = (s', Ok u) ->
  s' = set_beneficiaries da (beneficiaries s') /\
  exists totals,
    withdraw_loop (wd_now c) (beneficiaries da) 0 0 = (beneficiaries s', Ok totals) /\
    0 < fst totals <= wd_escrow_amount c.
Proof.
  unfold withdraw, bind, lift, get, put, require, token_transfer.
  destruct (wd_escrow_key_ok c); [|discriminate].
  destruct (wd_escrow_bump_ok c); [|discriminate].
  destruct (N.eqb (authority da) (wd_admin c)); [|discriminate].
  destruct (withdraw_loop (wd_now c) (beneficiaries da) 0 0) as [bs' [totals|err]] eqn:El;
    [|discriminate].
  destruct (Z.gtb_spec (fst totals) 0) as [Hpos|]; [|discriminate].
  destruct (Z.geb_spec (wd_escrow_amount c) (fst totals)) as [Hesc|]; [|discriminate].
  destruct (wd_transfer_ok c); [|discriminate].
  intros Hw. inversion Hw; subst. cbn [beneficiaries set_beneficiaries].
  split; [reflexivity|]. exists totals. split; [reflexivity | lia].
Qed.

(** X12.  A successful [withdraw] sends [total_unclaimed], which equals
    the increase of the sum of all [claimed_tokens], is positive and is
    covered by the escrow; [beneficiaries_processed] counts the entries it
    changed; no other field of the account changes. *)
Theorem withdraw_accounting (da da' : DataAccount) (c : WithdrawCtx)
    (H : exec (Some da) (Withdraw c) = (Some da', Ok tt)) :
  exists total_unclaimed processed,
    withdraw_loop (wd_now c) (beneficiaries da) 0 0
      = (beneficiaries da', Ok (total_unclaimed, processed)) /\
    total_unclaimed = sum_claimed (beneficiaries da') - sum_claimed (beneficiaries da) /\
    0 < total_unclaimed <= wd_escrow_amount c /\
    processed = count_changed (beneficiaries da) (beneficiaries da') /\
    da' = set_beneficiaries da (beneficiaries da').
Proof.
  apply exec_ok_withdraw, withdraw_ok_escrow in H as (Hda' & [tot p] & Hl & Hpos).
  cbn [fst] in Hpos. pose proof (withdraw_loop_accounting _ _ _ _ _ _ _ Hl) as [Ht Hp].
  exists tot, p. repeat split; auto; lia.
Qed.

Lemma total_allocation_amounts_nonneg (bs : list Beneficiary) :
  Forall (fun b => 0 <= claimed_tokens b /\ 0 <= allocated_tokens b) bs ->
  0 <= total_allocation bs.
Proof.
  induction 1 as [|b rest [_ Hb] _ IH]; cbn; [lia|]. unfold total_allocation in IH. lia.
Qed.

Lemma withdraw_loop_no_overflow (now : Z) (bs bs' : list Beneficiary) (t p : Z) (e : Error) :
  Forall (fun b => 0 <= claimed_tokens b /\ 0 <= allocated_tokens b) bs ->
  0 <= t -> t + total_allocation bs <= U64_MAX ->
  0 <= p -> p + Z.of_nat (length bs) <= U32_MAX ->
  withdraw_loop now bs t p = (bs', Err e) -> e <> VErr MathOverflow.
Proof.
  intros Hb. revert bs' t p.
  induction Hb as [|b rest [Hcl Hal] Hrest IH]; intros bs' t p Ht Hsum Hp Hlen H;
    cbn [withdraw_loop] in H; [discriminate|].
  pose proof (total_allocation_amounts_nonneg rest Hrest) as Hnn.
  cbn [total_allocation map fold_right length] in Hsum, Hlen.
  fold (total_allocation rest) in Hsum.
  destruct (earliest_withdraw_time b) as [t0|e0] eqn:Et.
  2:{ inversion H; subst. unfold earliest_withdraw_time, mul_i64, add_i64 in Et.
      repeat match type of Et with
      | context [if ?c then _ else _] => destruct c; cbn [res_bind] in Et
      end; inversion Et; discriminate. }
  destruct ((now >? t0) && (saturating_sub_unsigned (allocated_tokens b)
                              (claimed_tokens b) >? 0)).
  - unfold saturating_sub_unsigned, checked_add_u64, checked_add_u32 in H.
    destruct (Z.leb_spec (t + Z.max 0 (allocated_tokens b - claimed_tokens b)) U64_MAX);
      [|lia].
    destruct (Z.leb_spec (p + 1) U32_MAX); [|lia].
    destruct (withdraw_loop now rest _ _) as [rest' r] eqn:Er.
    inversion H; subst. eapply IH; [| | | | exact Er]; lia.
  - destruct (withdraw_loop now rest t p) as [rest' r] eqn:Er.
    inversion H; subst. eapply IH; [| | | | exact Er]; lia.
Qed.

(** X13.  When the allocations are non-negative and sum to at most
    [u64::MAX], the claimed amounts are non-negative and there are at most
    [u32::MAX] entries, [withdraw] never fails with [MathOverflow]. *)
Theorem withdraw_no_math_overflow (da : DataAccount) (c : WithdrawCtx)
    (Hamounts : Forall (fun b => 0 <= claimed_tokens b /\ 0 <= allocated_tokens b)
                       (beneficiaries da))
    (Hsum : total_allocation (beneficiaries da) <= U64_MAX)
    (Hlen : Z.of_nat (length (beneficiaries da)) <= U32_MAX) :
  snd (exec (Some da) (Withdraw c)) <> Err (VErr MathOverflow).
Proof.
  unfold exec, commit, withdraw, bind, lift, get, put, require, token_transfer.
  destruct (wd_escrow_key_ok c); [|discriminate].
  destruct (wd_escrow_bump_ok c); [|discriminate].
  destruct (N.eqb (authority da) (wd_admin c)); [|discriminate].
  destruct (withdraw_loop (wd_now c) (beneficiaries da) 0 0) as [bs' [totals|e]] eqn:El.
  - destruct (fst totals >? 0); [|discriminate].
    destruct (wd_escrow_amount c >=? fst totals); [|discriminate].
    destruct (wd_transfer_ok c); discriminate.
  - cbn [snd]. intros He. inversion He; subst.
    eapply (withdraw_loop_no_overflow _ _ _ 0 0 _ Hamounts); [lia | lia | lia | lia | exact El |].
    reflexivity.
Qed.

(** X14.  The outcome of [change_admin]: a caller other than the
    authority gets [UnauthorizedAdmin] whatever the new key; then a new key
    equal to the caller gets [SameAdmin], then the null key gets
    [InvalidAddress]; otherwise only the authority changes. *)
Theorem change_admin_outcome (da : DataAccount) (cur new : Pubkey) :
  exec (Some da) (ChangeAdmin (mkChangeAdminCtx cur new))
  = if N.eqb (authority da) cur then
      if N.eqb new cur then (Some da, Err (VErr SameAdmin))
      else if N.eqb new default_pubkey then (Some da, Err (VErr InvalidAddress))
      else (Some (set_authority da new), Ok tt)
    else (Some da, Err (VErr UnauthorizedAdmin)).
Proof.
  unfold exec, commit, change_admin, bind, lift, get, put, require.
  cbn [ca_current_admin ca_new_admin].
  destruct (N.eqb (authority da) cur); [|reflexivity].
  destruct (N.eqb new cur); [reflexivity|].
  destruct (N.eqb new default_pubkey); reflexivity.
Qed.

Lemma exec_change_admin_success (da da' : DataAccount) (cur new : Pubkey) :
  exec (Some da) (ChangeAdmin (mkChangeAdminCtx cur new)) = (Some da', Ok tt) ->
  authority da = cur /\ da' = set_authority da new.
Proof.
  unfold exec, commit, change_admin, bind, lift, get, put, require.
  cbn [ca_current_admin ca_new_admin].
  destruct (N.eqb_spec (authority da) cur); [|discriminate].
  destruct (N.eqb new cur); [discriminate|].
  destruct (N.eqb new default_pubkey); [discriminate|].
  intros H; inversion H; auto.
Qed.

(** X15.  After a successful hand-over from [cur] to [new], the old
    admin [cur] is locked out: its [withdraw] and its [change_admin] fail
    with [UnauthorizedAdmin]; the beneficiaries are untouched. *)
Theorem admin_handover_revokes_old (da da' : DataAccount) (cur new : Pubkey)
    (H : exec (Some da) (ChangeAdmin (mkChangeAdminCtx cur new)) = (Some da', Ok tt))
    (w : WithdrawCtx) (Hw : wd_admin w = cur)
    (Hkey : wd_escrow_key_ok w = true) (Hbump : wd_escrow_bump_ok w = true)
    (next : Pubkey) :
  authority da' = new /\ beneficiaries da' = beneficiaries da /\
  exec (Some da') (Withdraw w) = (Some da', Err (VErr UnauthorizedAdmin)) /\
  exec (Some da') (ChangeAdmin (mkChangeAdminCtx cur next))
  = (Some da', Err (VErr UnauthorizedAdmin)).
Proof.
  pose proof H as H'.
  apply exec_change_admin_success in H as [Hauth ->].
  assert (Hne : new <> cur).
  { intros ->. unfold exec, commit, change_admin, bind, lift, get, put, require in H'.
    cbn [ca_current_admin ca_new_admin] in H'.
    rewrite Hauth, N.eqb_refl in H'. discriminate. }
  cbn [authority beneficiaries set_authority].
  split; [reflexivity|]. split; [reflexivity|]. split.
  - unfold exec, commit, withdraw, bind, lift, get, require. rewrite Hkey, Hbump, Hw.
    cbn [authority set_authority].
    destruct (N.eqb_spec new cur); [contradiction | reflexivity].
  - unfold exec, commit, change_admin, bind, lift, get, put, require.
    cbn [ca_current_admin ca_new_admin authority set_authority].
    destruct (N.eqb_spec new cur); [contradiction | reflexivity].
Qed.

(** ** Layout *)

Lemma le_bytes_length (n : nat) (x : Z) : length (le_bytes n x) = n.
Proof. unfold le_bytes. rewrite length_map, length_seq. reflexivity. Qed.

Lemma borsh_beneficiary_length (b : Beneficiary) : length (borsh_beneficiary b) = 58%nat.
Proof.
  unfold borsh_beneficiary, borsh_pubkey. rewrite !length_app, !le_bytes_length. reflexivity.
Qed.

Lemma borsh_data_account_length (disc : list Z) (da : DataAccount) :
  length (borsh_data_account disc da)
  = (length disc + 8 + 32 + 32 + 32 + 4 + 58 * length (beneficiaries da) + 1)%nat.
Proof.
  unfold borsh_data_account, borsh_pubkey. rewrite !length_app, !le_bytes_length.
  assert (Hc : forall bs, length (concat (map borsh_beneficiary bs)) = (58 * length bs)%nat).
  { induction bs as [|b bs IH]; [reflexivity|].
    cbn [map concat length]. rewrite length_app, borsh_beneficiary_length, IH. lia. }
  rewrite Hc. lia.
Qed.

Lemma initialize_stores_beneficiaries (c : InitCtx) (s s' : DataAccount) (u : unit) :
  initialize c s = (s', Ok u) -> beneficiaries s' = in_beneficiaries c.
Proof.
  intros Ei. unfold initialize in Ei.
  apply bind_ok in Ei as (da0 & s1 & Hget & Ei). inversion Hget; subst; clear Hget.
  apply bind_ok in Ei as (u0 & s2 & _ & Ei).
  do 7 (apply bind_ok in Ei as (? & ? & Hl & Ei); apply lift_ok in Hl as [_ ->]).
  apply bind_ok in Ei as (u7 & s10 & Hm & Ei). inversion Hm; subst; clear Hm.
  apply bind_ok in Ei as (u8 & s11 & Hl & Ei). apply lift_ok in Hl as [_ ->].
  unfold token_transfer in Ei. apply lift_ok in Ei as [_ ->]. reflexivity.
Qed.

(** Every transaction on an existing account keeps its number of
    beneficiaries. *)
Lemma exec_some_length (da : DataAccount) (i : Instruction) :
  exists da', fst (exec (Some da) i) = Some da' /\
    length (beneficiaries da') = length (beneficiaries da).
Proof.
  destruct i as [c|c|c|c]; cbn [exec]; unfold commit; [eauto| | |].
  - destruct (claim c da) as [s' [[]|e]] eqn:Ec; cbn [fst]; [|eauto].
    exists s'. split; [reflexivity|].
    apply claim_ok in Ec as (index & b & claimable & Hf & _ & ->).
    apply list_find_Some in Hf as (Hb & _ & _).
    unfold store_claimed. rewrite Hb. apply length_insert.
  - destruct (withdraw c da) as [s' [[]|e]] eqn:Ew; cbn [fst]; [|eauto].
    exists s'. split; [reflexivity|].
    apply withdraw_ok in Ew as (_ & _ & _ & _ & totals & Hl & _).
    pose proof (withdraw_loop_swept (wd_now c) (beneficiaries da) 0 0) as Hsw.
    rewrite Hl in Hsw. symmetry. eapply Forall2_length; eauto.
  - destruct (change_admin c da) as [s' [[]|e]] eqn:Ec; cbn [fst]; [|eauto].
    exists s'. split; [reflexivity|]. apply change_admin_ok in Ec. rewrite Ec. reflexivity.
Qed.

Lemma exec_all_some_length (da : DataAccount) (is : list Instruction) :
  exists d, exec_all (Some da) is = Some d /\
    length (beneficiaries d) = length (beneficiaries da).
Proof.
  revert da. induction is as [|i rest IH]; intros da; cbn [exec_all]; [eauto|].
  destruct (exec_some_length da i) as (da' & -> & Hl).
  destruct (IH da') as (d & Hd & Hl'). exists d. split; [exact Hd | lia].
Qed.

(** X16.  The space [initialize] allocates,
    [calculate_vesting_space!(beneficiaries.len())], is one byte more than
    the Borsh encoding of the account it stores, and stays so after any
    sequence of later transactions, which never change the number of
    beneficiaries. *)
Theorem account_space_fits (c : InitCtx) (da : DataAccount) (disc : list Z)
    (Hdisc : length disc = 8%nat)
    (Hinit : exec None (Initialize c) = (Some da, Ok tt)) (is : list Instruction) :
  exists d, exec_all (Some da) is = Some d /\
    (length (borsh_data_account disc d) + 1
     = calculate_vesting_space (length (in_beneficiaries c)))%nat.
Proof.
  assert (Hb : beneficiaries da = in_beneficiaries c).
  { unfold exec in Hinit.
    destruct (initialize c default_data_account) as [s' [[]|e]] eqn:Ei;
      inversion Hinit; subst.
    eapply initialize_stores_beneficiaries; eauto. }
  destruct (exec_all_some_length da is) as (d & Hd & Hl).
  exists d. split; [exact Hd|].
  rewrite borsh_data_account_length, Hdisc, Hl, Hb. unfold calculate_vesting_space. lia.
Qed.

Lemma claim_calc_after_vesting_end (b : Beneficiary) (now : Z) :
  in_u8 (cliff_months b) -> in_u8 (total_months b) -> cliff_months b < total_months b ->
  claimed_tokens b < allocated_tokens b ->
  start_time b + total_months b * SECONDS_PER_MONTH <= now ->
  claim_calc b now = Ok (allocated_tokens b - claimed_tokens b).
Proof.
  unfold in_u8. intros Hc Ht Hct Hcl Hnow.
  assert (Hm : total_months b <= Z.min I64_MAX (now - start_time b) / SECONDS_PER_MONTH).
  { apply Z.div_le_lower_bound; unfold I64_MAX, SECONDS_PER_MONTH in *; lia. }
  unfold claim_calc, claim_unlocked, vesting_progress.
  rewrite sub_u64_le by lia. cbn [res_bind].
  unfold require at 1. destruct (Z.gtb_spec (total_months b - cliff_months b) 0); [|lia].
  cbn [res_bind]. rewrite months_elapsed_formula. cbn [res_bind].
  destruct (Z.geb_spec now (start_time b)); [|unfold SECONDS_PER_MONTH in *; lia].
  set (me := Z.min I64_MAX (now - start_time b) / SECONDS_PER_MONTH) in *.
  destruct (Z.ltb_spec me (cliff_months b)); [lia|].
  rewrite sub_u64_le by lia. cbn [res_bind fst snd].
  unfold unlocked_of.
  destruct (Z.geb_spec (Z.min (me - cliff_months b) (total_months b - cliff_months b))
              (total_months b - cliff_months b)); [|lia].
  cbn [res_bind]. unfold saturating_sub_unsigned, require.
  destruct (Z.gtb_spec (Z.max 0 (allocated_tokens b - claimed_tokens b)) 0); [|lia].
  cbn [res_bind]. f_equal. lia.
Qed.

(** X17.  Once the vesting has ended ([now >= start_time + total_months *
    M]), a beneficiary with something left to claim, whose escrow covers
    it, claims the whole remainder: the transaction succeeds and its
    [claimed_tokens] become [allocated_tokens]. *)
Theorem claim_after_vesting_end (da : DataAccount) (c : ClaimCtx) (index : nat)
    (b : Beneficiary)
    (Hkey : cl_escrow_key_ok c = true) (Hbump : cl_escrow_bump_ok c = true)
    (Hfind : list_find (fun b' => key b' = cl_sender c) (beneficiaries da) = Some (index, b))
    (Ha : in_u64 (allocated_tokens b)) (Hc : in_u8 (cliff_months b))
    (Ht : in_u8 (total_months b)) (Hct : cliff_months b < total_months b)
    (Hcl : 0 <= claimed_tokens b < allocated_tokens b)
    (Hnow : start_time b + total_months b * SECONDS_PER_MONTH <= cl_now c)
    (Hesc : allocated_tokens b - claimed_tokens b <= cl_escrow_amount c)
    (Htr : cl_transfer_ok c = true) :
  exec (Some da) (Claim c) = (Some (store_claimed index (allocated_tokens b) da), Ok tt).
Proof.
  pose proof (claim_calc_after_vesting_end b (cl_now c) Hc Ht Hct ltac:(lia) Hnow) as Hcalc.
  unfold exec, commit, claim, bind, lift, get, modify, require, token_transfer.
  rewrite Hkey, Hbump, Hfind, Hcalc, Htr.
  unfold in_u64 in Ha.
  unfold u64_try_from, checked_add_u64.
  destruct (Z.leb_spec (allocated_tokens b - claimed_tokens b) U64_MAX); [|lia].
  cbn [ok_or].
  destruct (Z.geb_spec (cl_escrow_amount c) (allocated_tokens b - claimed_tokens b)); [|lia].
  replace (claimed_tokens b + (allocated_tokens b - claimed_tokens b))
    with (allocated_tokens b) by lia.
  destruct (Z.leb_spec (allocated_tokens b) U64_MAX); [|lia].
  reflexivity.
Qed.

(** ** Witnesses of the extra properties *)

Lemma initialize_success_config_witness :
  exec None (Initialize init_valid) = (Some acct_valid, Ok tt) /\
  NoDup (map key (in_beneficiaries init_valid)) /\
  total_allocation (in_beneficiaries init_valid) <= in_amount init_valid.
Proof.
  assert (H : exec None (Initialize init_valid) = (Some acct_valid, Ok tt))
    by (vm_compute; reflexivity).
  split; [exact H|].
  destruct (initialize_success_config init_valid acct_valid H)
    as (_ & _ & _ & _ & _ & _ & Hnd & Htot).
  split; [exact Hnd | exact Htot].
Defined.

Lemma initialize_ignores_claimed_witness :
  Forall2 same_terms (in_beneficiaries init_valid) preclaimed /\
  exec None (Initialize (with_beneficiaries init_valid preclaimed))
  = (Some (set_beneficiaries acct_valid preclaimed), Ok tt).
Proof.
  assert (H : Forall2 same_terms (in_beneficiaries init_valid) preclaimed)
    by (repeat constructor).
  split; [exact H|].
  rewrite (initialize_ignores_claimed init_valid preclaimed H).
  vm_compute. reflexivity.
Defined.

Lemma claim_unknown_sender_witness :
  exec (Some acctA) (Claim (mkClaimCtx 2 (T0A + 4 * M) true true 1200000 true))
  = (Some acctA, Err (VErr BeneficiaryNotFound)).
Proof.
  apply claim_unknown_sender; [reflexivity | reflexivity |].
  repeat constructor. cbn. discriminate.
Defined.

Lemma claim_success_effect_witness :
  exec (Some acctA) (Claim claimA4) = (Some acctA_claimed4, Ok tt) /\
  exists index b u,
    list_find (fun b' => key b' = cl_sender claimA4) (beneficiaries acctA) = Some (index, b) /\
    claim_unlocked b (cl_now claimA4) = Ok u /\
    beneficiaries acctA_claimed4 !! index = Some (set_claimed_tokens b u).
Proof.
  assert (H : exec (Some acctA) (Claim claimA4) = (Some acctA_claimed4, Ok tt))
    by (vm_compute; reflexivity).
  split; [exact H|].
  destruct (claim_success_effect acctA acctA_claimed4 claimA4 H)
    as (index & b & u & Hf & Hu & _ & _ & Hl & _).
  exists index, b, u. auto.
Defined.

Lemma claim_repeat_same_instant_witness :
  exec (Some acctA) (Claim claimA4) = (Some acctA_claimed4, Ok tt) /\
  exec (Some acctA_claimed4) (Claim (mkClaimCtx 1 (T0A + 4 * M) true true 1200000 true))
  = (Some acctA_claimed4, Err (VErr ClaimNotAllowed)).
Proof.
  assert (H : exec (Some acctA) (Claim claimA4) = (Some acctA_claimed4, Ok tt))
    by (vm_compute; reflexivity).
  split; [exact H|].
  apply (claim_repeat_same_instant acctA acctA_claimed4 claimA4 _ H); reflexivity.
Defined.

Lemma claim_unlocked_monotone_witness :
  claim_unlocked (scenarioA_beneficiary 1 T0A) (T0A + 4 * M) = Ok 133333 /\
  exists u2, claim_unlocked (scenarioA_beneficiary 1 T0A) (T0A + 7 * M) = Ok u2 /\
    133333 <= u2 <= 1200000.
Proof.
  assert (H1 : claim_unlocked (scenarioA_beneficiary 1 T0A) (T0A + 4 * M) = Ok 133333)
    by (vm_compute; reflexivity).
  split; [exact H1|].
  apply (claim_unlocked_monotone (scenarioA_beneficiary 1 T0A) (T0A + 4 * M) (T0A + 7 * M));
    [cbn; unfold in_u64, U64_MAX; lia | cbn; unfold in_u8; lia | cbn; unfold in_u8; lia
    | unfold M, SECONDS_PER_MONTH; lia | exact H1].
Defined.

Lemma claim_fully_claimed_fails_witness :
  list_find (fun b' => key b' = 1%N) (beneficiaries acctA_swept)
    = Some (0%nat, set_claimed_tokens (scenarioA_beneficiary 1 T0A) 1200000) /\
  exists e, exec (Some acctA_swept) (Claim (mkClaimCtx 1 (T0A + 20 * M) true true 1200000 true))
            = (Some acctA_swept, Err e).
Proof.
  assert (Hf : list_find (fun b' => key b' = 1%N) (beneficiaries acctA_swept)
               = Some (0%nat, set_claimed_tokens (scenarioA_beneficiary 1 T0A) 1200000))
    by reflexivity.
  split; [exact Hf|].
  apply (claim_fully_claimed_fails acctA_swept
           (mkClaimCtx 1 (T0A + 20 * M) true true 1200000 true) 0
           (set_claimed_tokens (scenarioA_beneficiary 1 T0A) 1200000));
    [exact Hf | cbn; lia | cbn; lia].
Defined.

Lemma claim_no_math_overflow_witness :
  snd (exec (Some acctA) (Claim claimA4)) <> Err (VErr MathOverflow).
Proof.
  apply claim_no_math_overflow.
  repeat constructor; cbn; unfold U64_MAX; lia.
Defined.

Lemma withdraw_unauthorized_witness :
  exec (Some acctA) (Withdraw (mkWithdrawCtx 99 (T0A + 19 * M) true true 1200000 true))
  = (Some acctA, Err (VErr UnauthorizedAdmin)).
Proof.
  apply withdraw_unauthorized; [reflexivity | reflexivity | cbn; discriminate].
Defined.

Lemma withdraw_before_grace_witness :
  exec (Some acctA) (Withdraw (mkWithdrawCtx 7 (T0A + 18 * M) true true 1200000 true))
  = (Some acctA, Err (VErr NoUnclaimedTokens)).
Proof.
  apply withdraw_before_grace; [reflexivity | reflexivity | reflexivity |].
  repeat constructor; cbn; unfold I64_MIN, I64_MAX, T0A, M, GRACE_PERIOD, SECONDS_PER_MONTH; lia.
Defined.

Lemma withdraw_accounting_witness :
  exec (Some acctA) (Withdraw (sweepB 1200000)) = (Some acctA_swept, Ok tt) /\
  exists total_unclaimed processed,
    withdraw_loop (wd_now (sweepB 1200000)) (beneficiaries acctA) 0 0
      = (beneficiaries acctA_swept, Ok (total_unclaimed, processed)) /\
    total_unclaimed = sum_claimed (beneficiaries acctA_swept) - sum_claimed (beneficiaries acctA) /\
    processed = count_changed (beneficiaries acctA) (beneficiaries acctA_swept).
Proof.
  assert (H : exec (Some acctA) (Withdraw (sweepB 1200000)) = (Some acctA_swept, Ok tt))
    by (vm_compute; reflexivity).
  split; [exact H|].
  destruct (withdraw_accounting acctA acctA_swept (sweepB 1200000) H)
    as (t & p & Hl & Ht & _ & Hp & _).
  exists t, p. auto.
Defined.

Lemma withdraw_no_math_overflow_witness :
  snd (exec (Some acctA) (Withdraw (sweepB 0))) <> Err (VErr MathOverflow).
Proof.
  apply withdraw_no_math_overflow.
  - repeat constructor; cbn; lia.
  - vm_compute. discriminate.
  - vm_compute. discriminate.
Defined.

Lemma admin_handover_revokes_old_witness :
  exec (Some acctA) (ChangeAdmin (mkChangeAdminCtx 7 20)) = (Some (set_authority acctA 20), Ok tt) /\
  exec (Some (set_authority acctA 20))
       (Withdraw (mkWithdrawCtx 7 (T0A + 19 * M) true true 1200000 true))
  = (Some (set_authority acctA 20), Err (VErr UnauthorizedAdmin)).
Proof.
  assert (H : exec (Some acctA) (ChangeAdmin (mkChangeAdminCtx 7 20))
              = (Some (set_authority acctA 20), Ok tt)) by (vm_compute; reflexivity).
  split; [exact H|].
  destruct (admin_handover_revokes_old acctA (set_authority acctA 20) 7 20 H
              (mkWithdrawCtx 7 (T0A + 19 * M) true true 1200000 true)
              eq_refl eq_refl eq_refl 30) as (_ & _ & Hw & _).
  exact Hw.
Defined.

Lemma account_space_fits_witness :
  exec None (Initialize init_valid) = (Some acct_valid, Ok tt) /\
  exists d, exec_all (Some acct_valid) [Claim claimA4] = Some d /\
    (length (borsh_data_account [0%Z; 0%Z; 0%Z; 0%Z; 0%Z; 0%Z; 0%Z; 0%Z] d) + 1
     = calculate_vesting_space (length (in_beneficiaries init_valid)))%nat.
Proof.
  assert (H : exec None (Initialize init_valid) = (Some acct_valid, Ok tt))
    by (vm_compute; reflexivity).
  split; [exact H|].
  exact (account_space_fits init_valid acct_valid [0%Z; 0%Z; 0%Z; 0%Z; 0%Z; 0%Z; 0%Z; 0%Z] eq_refl H
           [Claim claimA4]).
Defined.

Lemma claim_after_vesting_end_witness :
  exec (Some acctA) (Claim (mkClaimCtx 1 (T0A + 12 * M) true true 1200000 true))
  = (Some (store_claimed 0 1200000 acctA), Ok tt).
Proof.
  apply (claim_after_vesting_end acctA _ 0 (scenarioA_beneficiary 1 T0A));
    try reflexivity; cbn; unfold in_u64, in_u8, U64_MAX, T0A, M, SECONDS_PER_MONTH; lia.
Defined.
